(** * PowerShell completion provider (pwshCompletionProvider.ts)

    A shallow embedding of [PwshCompletionProviderAddon] and of the two
    free functions [parseCompletionsFromShell] and
    [rawCompletionToTerminalCompletionItem].

    Conventions.
    - A JavaScript string is a [string]: a sequence of code units below 256.
    - A JavaScript number is an exact integer ([Z]); [NaN] is added where
      [parseInt] can produce it.  Rounding above 2^53 and fractional
      numbers are outside the model.
    - [undefined] is [None].
    - The class instance is a record [Provider]; methods are computations
      in a state-and-exception monad over it. *)

From Stdlib Require Import ZArith Bool Ascii String List Lia.
From stdpp Require Import base option list strings.
Import ListNotations.

Set Warnings "-register-all".

Local Open Scope string_scope.
Local Open Scope bool_scope.
Local Open Scope list_scope.

(** ** Strings *)

Module Str.

(** [s[s.length - 1]] *)
Fixpoint last (s : string) : option ascii :=
  match s with
  | EmptyString => None
  | String c EmptyString => Some c
  | String _ s' => last s'
  end.

Fixpoint all (p : ascii -> bool) (s : string) : bool :=
  match s with
  | EmptyString => true
  | String c s' => p c && all p s'
  end.

(** [s.includes(c)] for a one-character needle. *)
Fixpoint includes (c : ascii) (s : string) : bool :=
  match s with
  | EmptyString => false
  | String d s' => Ascii.eqb c d || includes c s'
  end.

(** The first character satisfying [p], if any. *)
Fixpoint find (p : ascii -> bool) (s : string) : option ascii :=
  match s with
  | EmptyString => None
  | String c s' => if p c then Some c else find p s'
  end.

Fixpoint drop (n : nat) (s : string) : string :=
  match n, s with
  | O, _ => s
  | S n', String _ s' => drop n' s'
  | S _, EmptyString => EmptyString
  end.

Fixpoint take (n : nat) (s : string) : string :=
  match n, s with
  | S n', String c s' => String c (take n' s')
  | _, _ => EmptyString
  end.

(** [s.split(';')]: always at least one piece. *)
Fixpoint split (d : ascii) (s : string) : list string :=
  match s with
  | EmptyString => [EmptyString]
  | String c s' =>
      if Ascii.eqb c d then EmptyString :: split d s'
      else match split d s' with
           | p :: ps => String c p :: ps
           | [] => [String c EmptyString]
           end
  end.

End Str.

(** ** Character classes and the regular expressions of the normalizer *)

Definition isPathSeparator (c : ascii) : bool :=
  Ascii.eqb c "\" || Ascii.eqb c "/".

Definition between (lo hi c : ascii) : bool :=
  (nat_of_ascii lo <=? nat_of_ascii c)%nat && (nat_of_ascii c <=? nat_of_ascii hi)%nat.

Definition isDigit (c : ascii) : bool := between "0" "9" c.
Definition isLower (c : ascii) : bool := between "a" "z" c.
Definition isUpper (c : ascii) : bool := between "A" "Z" c.

(** [[a-z0-9]] under the [i] flag. *)
Definition isAlnumIgnoreCase (c : ascii) : bool := isLower c || isUpper c || isDigit c.

(** [/^[\-+]$/] *)
Definition matchesDashOrPlus (s : string) : bool :=
  String.eqb s "-" || String.eqb s "+".

(** [/^\.\.?$/] *)
Definition matchesDotOrDotDot (s : string) : bool :=
  String.eqb s "." || String.eqb s "..".

(** [/[\\\/]$/] *)
Definition matchesTrailingSeparator (s : string) : bool :=
  match Str.last s with
  | Some c => isPathSeparator c
  | None => false
  end.

(** [s.match(/(?<sep>[\\\/])/)?.groups?.sep]: the leftmost separator. *)
Definition matchSep (s : string) : option string :=
  match Str.find isPathSeparator s with
  | Some c => Some (String c EmptyString)
  | None => None
  end.

(** [\.[a-z0-9]{2,4}$] with the [i] flag, tried at the start of [t]. *)
Definition matchesExtensionHere (t : string) : bool :=
  match t with
  | String "." e =>
      (2 <=? String.length e)%nat && (String.length e <=? 4)%nat
      && Str.all isAlnumIgnoreCase e
  | _ => false
  end.

(** [/\.[a-z0-9]{2,4}$/i], searched from every start position. *)
Fixpoint matchesExtension (s : string) : bool :=
  matchesExtensionHere s ||
  match s with
  | EmptyString => false
  | String _ s' => matchesExtension s'
  end.

(** ** Numbers *)

Inductive number : Type :=
| NaN
| Num (z : Z).

Definition number_add (a b : number) : number :=
  match a, b with
  | Num x, Num y => Num (x + y)
  | _, _ => NaN
  end.

Definition number_sub (a b : number) : number :=
  match a, b with
  | Num x, Num y => Num (x - y)
  | _, _ => NaN
  end.

(** ** Data model *)

(** [PwshCompletion]; a [CompressedPwshCompletion] carries the same four
    components by position. *)
Record PwshCompletion : Type := {
  CompletionText : string;
  ResultType : Z;
  ToolTip : option string;
  CustomIcon : option string
}.

Section Icons.

(** [ThemeIcon] and the [Codicon] library live in files that are not part
    of this component; they are parameters. *)
Variable ThemeIcon : Type.

(** The arguments [new TerminalCompletionItem(...)] receives, in order;
    the seventh and eighth are always [undefined]. *)
Record TerminalCompletionItem : Type := {
  label : string;
  icon : ThemeIcon;
  detail : string;
  isFile : bool;
  isDirectory : bool;
  isKeyword : bool;
  replacementIndex : number;
  replacementLength : number
}.

(** The icons this file names, and dynamic access to the rest. *)
Class Codicons : Type := {
  (** [id in Codicon] *)
  Codicon_has : string -> bool;
  (** [Codicon[id]], [None] when [undefined] *)
  Codicon_get : string -> option ThemeIcon;
  symbolText : ThemeIcon;
  history : ThemeIcon;
  symbolMethod : ThemeIcon;
  symbolFile : ThemeIcon;
  folder : ThemeIcon;
  symbolProperty : ThemeIcon;
  symbolVariable : ThemeIcon;
  symbolValue : ThemeIcon;
  symbolNamespace : ThemeIcon;
  symbolInterface : ThemeIcon;
  symbolKeyword : ThemeIcon;
  (** [sep] of base/common/path *)
  sep : string
}.

Context `{Codicons}.

Definition pwshTypeToIconMap (type : Z) : option ThemeIcon :=
  match type with
  | 0 => Some symbolText
  | 1 => Some history
  | 2 => Some symbolMethod
  | 3 => Some symbolFile
  | 4 => Some folder
  | 5 => Some symbolProperty
  | 6 => Some symbolMethod
  | 7 => Some symbolVariable
  | 8 => Some symbolValue
  | 9 => Some symbolVariable
  | 10 => Some symbolNamespace
  | 11 => Some symbolInterface
  | 12 => Some symbolKeyword
  | 13 => Some symbolKeyword
  | _ => None
  end%Z.

(** Truthiness of [customIconId?: string]. *)
Definition truthy (o : option string) : option string :=
  match o with
  | Some EmptyString => None
  | _ => o
  end.

(** [pwshTypeToIconMap[resultType] ?? Codicon.symbolText] *)
Definition fromMap (resultType : Z) : ThemeIcon :=
  default symbolText (pwshTypeToIconMap resultType).

Definition getIcon (resultType : Z) (customIconId : option string) : ThemeIcon :=
  match truthy customIconId with
  | Some id =>
      let icon := if Codicon_has id then Codicon_get id else Some symbolText in
      match icon with
      | Some i => i
      | None => fromMap resultType
      end
  | None => fromMap resultType
  end.

(** The function also assigns [rawCompletion.ResultType = 3] when
    [isExecutable]; the second component is the record after the call. *)
Definition rawCompletionToTerminalCompletionItem'
    (rawCompletion : PwshCompletion) (replacementIndex replacementLength : number)
  : TerminalCompletionItem * PwshCompletion :=
  let label0 := CompletionText rawCompletion in
  let label :=
    if (ResultType rawCompletion =? 4)%Z
       && negb (matchesDashOrPlus label0)
       && negb (matchesDotOrDotDot label0)
       && negb (matchesTrailingSeparator label0)
    then
      let separator := default sep (matchSep label0) in
      label0 +:+ separator
    else label0 in
  let detail := default label (ToolTip rawCompletion) in
  let icon := getIcon (ResultType rawCompletion) (CustomIcon rawCompletion) in
  let isExecutable :=
    (ResultType rawCompletion =? 2)%Z
    && matchesExtension (CompletionText rawCompletion) in
  let rawCompletion :=
    if isExecutable
    then {| CompletionText := CompletionText rawCompletion;
            ResultType := 3;
            ToolTip := ToolTip rawCompletion;
            CustomIcon := CustomIcon rawCompletion |}
    else rawCompletion in
  ({| label := label;
      icon := icon;
      detail := detail;
      isFile := (ResultType rawCompletion =? 3)%Z;
      isDirectory := (ResultType rawCompletion =? 4)%Z;
      isKeyword := (ResultType rawCompletion =? 12)%Z;
      replacementIndex := replacementIndex;
      replacementLength := replacementLength |},
   rawCompletion).

Definition rawCompletionToTerminalCompletionItem
    (rawCompletion : PwshCompletion) (replacementIndex replacementLength : number)
  : TerminalCompletionItem :=
  fst (rawCompletionToTerminalCompletionItem' rawCompletion replacementIndex replacementLength).

End Icons.

Arguments label {ThemeIcon}.
Arguments icon {ThemeIcon}.
Arguments detail {ThemeIcon}.
Arguments isFile {ThemeIcon}.
Arguments isDirectory {ThemeIcon}.
Arguments isKeyword {ThemeIcon}.
Arguments replacementIndex {ThemeIcon}.
Arguments replacementLength {ThemeIcon}.
Arguments Codicon_has {ThemeIcon _}.
Arguments Codicon_get {ThemeIcon _}.
Arguments symbolText {ThemeIcon _}.
Arguments history {ThemeIcon _}.
Arguments symbolMethod {ThemeIcon _}.
Arguments symbolFile {ThemeIcon _}.
Arguments folder {ThemeIcon _}.
Arguments symbolProperty {ThemeIcon _}.
Arguments symbolVariable {ThemeIcon _}.
Arguments symbolValue {ThemeIcon _}.
Arguments symbolNamespace {ThemeIcon _}.
Arguments symbolInterface {ThemeIcon _}.
Arguments symbolKeyword {ThemeIcon _}.
Arguments sep {ThemeIcon _}.
Arguments pwshTypeToIconMap {ThemeIcon _}.
Arguments fromMap {ThemeIcon _}.
Arguments getIcon {ThemeIcon _}.
Arguments rawCompletionToTerminalCompletionItem' {ThemeIcon _}.
Arguments rawCompletionToTerminalCompletionItem {ThemeIcon _}.

(** ** Exceptions *)

Inductive exn : Type :=
| SyntaxError
| TypeError
| Error (message : string)
(** A value that is not of the TypeScript type it is cast to; what the
    code does with it is not modelled. *)
| OutsideDeclaredType.

Definition result (A : Type) : Type := exn + A.

Definition result_bind {A B} (r : result A) (k : A -> result B) : result B :=
  match r with
  | inl e => inl e
  | inr a => k a
  end.

Fixpoint result_mapM {A B} (f : A -> result B) (l : list A) : result (list B) :=
  match l with
  | [] => inr []
  | a :: l' =>
      result_bind (f a) (fun b =>
      result_bind (result_mapM f l') (fun bs => inr (b :: bs)))
  end.

(** ** JavaScript values, as [JSON.parse] builds them *)

Inductive JSValue : Type :=
| JUndefined
| JNull
| JBool (b : bool)
| JNum (z : Z)
| JStr (s : string)
| JArr (elements : list JSValue)
| JObj (fields : list (string * JSValue)).

(** [!v] *)
Definition isFalsy (v : JSValue) : bool :=
  match v with
  | JUndefined | JNull | JBool false | JNum 0 | JStr EmptyString => true
  | _ => false
  end.

Definition Array_isArray (v : JSValue) : bool :=
  match v with
  | JArr _ => true
  | _ => false
  end.

Definition typeof_is_string (v : JSValue) : bool :=
  match v with
  | JStr _ => true
  | _ => false
  end.

(** [o.k] on a plain object *)
Fixpoint getField (k : string) (fields : list (string * JSValue)) : JSValue :=
  match fields with
  | [] => JUndefined
  | (k', v) :: rest => if String.eqb k k' then v else getField k rest
  end.

(** [a[i]] on an array *)
Definition getIndex (i : nat) (elements : list JSValue) : JSValue :=
  nth i elements JUndefined.

Definition asString (v : JSValue) : result string :=
  match v with
  | JStr s => inr s
  | _ => inl OutsideDeclaredType
  end.

Definition asNumber (v : JSValue) : result Z :=
  match v with
  | JNum z => inr z
  | _ => inl OutsideDeclaredType
  end.

(** [x?: string]; [null] behaves as [undefined] under [??] and [if]. *)
Definition asOptionalString (v : JSValue) : result (option string) :=
  match v with
  | JUndefined | JNull => inr None
  | JStr s => inr (Some s)
  | _ => inl OutsideDeclaredType
  end.

Definition mkPwshCompletion (text kind tip ico : JSValue) : result PwshCompletion :=
  result_bind (asString text) (fun t =>
  result_bind (asNumber kind) (fun k =>
  result_bind (asOptionalString tip) (fun tt =>
  result_bind (asOptionalString ico) (fun ci =>
  inr {| CompletionText := t; ResultType := k; ToolTip := tt; CustomIcon := ci |})))).

(** [v as PwshCompletion] *)
Definition asPwshCompletion (v : JSValue) : result PwshCompletion :=
  match v with
  | JObj fields =>
      mkPwshCompletion (getField "CompletionText" fields) (getField "ResultType" fields)
                       (getField "ToolTip" fields) (getField "CustomIcon" fields)
  | _ => inl OutsideDeclaredType
  end.

(** [e => ({ CompletionText: e[0], ResultType: e[1], ToolTip: e[2], CustomIcon: e[3] })]
    on [e as CompressedPwshCompletion] *)
Definition fromCompressed (e : JSValue) : result PwshCompletion :=
  match e with
  | JArr elements =>
      mkPwshCompletion (getIndex 0 elements) (getIndex 1 elements)
                       (getIndex 2 elements) (getIndex 3 elements)
  | _ => inl OutsideDeclaredType
  end.

Section Parse.

Context {ThemeIcon : Type} `{Codicons ThemeIcon}.

Definition parseCompletionsFromShell
    (rawCompletions : JSValue) (replacementIndex replacementLength : number)
  : result (list (TerminalCompletionItem ThemeIcon)) :=
  if isFalsy rawCompletions then inr []
  else
    let typedRawCompletions : option (result (list PwshCompletion)) :=
      if negb (Array_isArray rawCompletions) then
        Some (result_mapM asPwshCompletion [rawCompletions])
      else
        match rawCompletions with
        | JArr elements =>
            match elements with
            | [] => None
            | first :: _ =>
                if typeof_is_string first then
                  Some (result_mapM fromCompressed [rawCompletions])
                else if Array_isArray first then
                  Some (result_mapM fromCompressed elements)
                else
                  Some (result_mapM asPwshCompletion elements)
            end
        | _ => None
        end in
    match typedRawCompletions with
    | None => inr []
    | Some typed =>
        result_bind typed (fun l =>
        inr (map (fun e => rawCompletionToTerminalCompletionItem e
                             replacementIndex replacementLength) l))
    end.

End Parse.

(** ** [parseInt] and [String.prototype.substring] *)

Definition isWhiteSpace (c : ascii) : bool :=
  let n := nat_of_ascii c in
  ((9 <=? n) && (n <=? 13) || (n =? 32) || (n =? 160))%nat.

Fixpoint trimStart (s : string) : string :=
  match s with
  | String c s' => if isWhiteSpace c then trimStart s' else s
  | EmptyString => s
  end.

Definition digitValue (radix : Z) (c : ascii) : option Z :=
  let n := Z.of_nat (nat_of_ascii c) in
  let v :=
    if isDigit c then Some (n - 48)%Z
    else if isLower c then Some (n - 97 + 10)%Z
    else if isUpper c then Some (n - 65 + 10)%Z
    else None in
  match v with
  | Some d => if (d <? radix)%Z then Some d else None
  | None => None
  end.

(** The longest prefix of digits, read in [radix]; [None] when it is empty. *)
Fixpoint readDigits (radix : Z) (acc : option Z) (s : string) : option Z :=
  match s with
  | String c s' =>
      match digitValue radix c with
      | Some d => readDigits radix (Some (default 0 acc * radix + d)%Z) s'
      | None => acc
      end
  | EmptyString => acc
  end.

(** [parseInt(s)] with no radix argument. *)
Definition parseInt_string (s : string) : number :=
  let s := trimStart s in
  let '(sign, s) :=
    match s with
    | String "-" s' => ((-1)%Z, s')
    | String "+" s' => (1%Z, s')
    | _ => (1%Z, s)
    end in
  let '(radix, s) :=
    match s with
    | String "0" (String "x" s') => (16%Z, s')
    | String "0" (String "X" s') => (16%Z, s')
    | _ => (10%Z, s)
    end in
  match readDigits radix None s with
  | Some v => Num (sign * v)
  | None => NaN
  end.

(** [parseInt(args[i])]; [undefined] reads as the text "undefined". *)
Definition parseInt (a : option string) : number :=
  match a with
  | Some s => parseInt_string s
  | None => NaN
  end.

(** [ToIntegerOrInfinity] clamped to [0 .. len] *)
Definition clampIndex (len : nat) (n : number) : nat :=
  match n with
  | NaN => 0
  | Num z => Nat.min (Z.to_nat z) len
  end.

(** [s.substring(start, end)] *)
Definition substring (s : string) (start end_ : number) : string :=
  let len := String.length s in
  let finalStart := clampIndex len start in
  let finalEnd := clampIndex len end_ in
  let from := Nat.min finalStart finalEnd in
  let to := Nat.max finalStart finalEnd in
  Str.take (to - from) (Str.drop from s).

(** ** The provider *)

(** What the provider reads of the xterm [Terminal]. *)
Record Terminal : Type := {
  (** [terminal.element] is set *)
  element : bool;
  (** [dom.isAncestorOfActiveElement(terminal.element)] *)
  isAncestorOfActiveElement : bool
}.

Module PromptInput.
(** [IPromptInputModel] and [IPromptInputModelState] *)
Record t : Type := {
  value : string;
  prefix : string;
  suffix : string;
  cursorIndex : Z;
  ghostTextIndex : Z
}.
End PromptInput.

Inductive TerminalShellType : Type :=
| PowerShell
| OtherShell (name : string).

Inductive Emitted : Type :=
| DidReceiveCompletions
| DidRequestCompletions
| AcceptedCompletion (sequence : string).

Section Provider.

Context {ThemeIcon : Type}.

Abbreviation Item := (TerminalCompletionItem ThemeIcon).

(** [undefined] is [None]. *)
Inductive PromiseState : Type :=
| Pending
| Fulfilled (value : option (list Item)).

Record Provider : Type := mkProvider {
  _codeCompletionsRequested : bool;
  _gitCompletionsRequested : bool;
  _lastUserDataTimestamp : Z;
  _terminal : option Terminal;
  _isFilteringDirectories : bool;
  _mostRecentCompletion : option Item;
  _promptInputModel : option PromptInput.t;
  _currentPromptInputState : option PromptInput.t;
  _enableWidget : bool;
  _pathSeparator : string;
  _leadingLineContent : option string;
  _cursorIndexDelta : number;
  isPasting : bool;
  (** index of the promise whose [resolve] is stored *)
  _completionsResolver : option nat;
  (** the static [Set], in insertion order *)
  cachedPwshCommands : list Item;
  (** the value under [Constants.CachedPwshCommandsStorageKey] *)
  storage : option string;
  (** every promise [_waitForCompletions] has created *)
  promises : list PromiseState;
  (** events fired so far, oldest first *)
  emitted : list Emitted;
  (** [activate] registered the OSC handler *)
  oscHandler : bool
}.

Definition set__codeCompletionsRequested (v : bool) (p : Provider) : Provider :=
  mkProvider
    v (_gitCompletionsRequested p) (_lastUserDataTimestamp p) (_terminal p)
    (_isFilteringDirectories p) (_mostRecentCompletion p) (_promptInputModel p)
    (_currentPromptInputState p) (_enableWidget p) (_pathSeparator p)
    (_leadingLineContent p) (_cursorIndexDelta p) (isPasting p)
    (_completionsResolver p) (cachedPwshCommands p) (storage p) (promises p)
    (emitted p) (oscHandler p).

Definition set__gitCompletionsRequested (v : bool) (p : Provider) : Provider :=
  mkProvider
    (_codeCompletionsRequested p) v (_lastUserDataTimestamp p) (_terminal p)
    (_isFilteringDirectories p) (_mostRecentCompletion p) (_promptInputModel p)
    (_currentPromptInputState p) (_enableWidget p) (_pathSeparator p)
    (_leadingLineContent p) (_cursorIndexDelta p) (isPasting p)
    (_completionsResolver p) (cachedPwshCommands p) (storage p) (promises p)
    (emitted p) (oscHandler p).

Definition set__lastUserDataTimestamp (v : Z) (p : Provider) : Provider :=
  mkProvider
    (_codeCompletionsRequested p) (_gitCompletionsRequested p) v (_terminal p)
    (_isFilteringDirectories p) (_mostRecentCompletion p) (_promptInputModel p)
    (_currentPromptInputState p) (_enableWidget p) (_pathSeparator p)
    (_leadingLineContent p) (_cursorIndexDelta p) (isPasting p)
    (_completionsResolver p) (cachedPwshCommands p) (storage p) (promises p)
    (emitted p) (oscHandler p).

Definition set__terminal (v : option Terminal) (p : Provider) : Provider :=
  mkProvider
    (_codeCompletionsRequested p) (_gitCompletionsRequested p)
    (_lastUserDataTimestamp p) v (_isFilteringDirectories p)
    (_mostRecentCompletion p) (_promptInputModel p) (_currentPromptInputState p)
    (_enableWidget p) (_pathSeparator p) (_leadingLineContent p)
    (_cursorIndexDelta p) (isPasting p) (_completionsResolver p)
    (cachedPwshCommands p) (storage p) (promises p) (emitted p) (oscHandler p).

Definition set__isFilteringDirectories (v : bool) (p : Provider) : Provider :=
  mkProvider
    (_codeCompletionsRequested p) (_gitCompletionsRequested p)
    (_lastUserDataTimestamp p) (_terminal p) v (_mostRecentCompletion p)
    (_promptInputModel p) (_currentPromptInputState p) (_enableWidget p)
    (_pathSeparator p) (_leadingLineContent p) (_cursorIndexDelta p) (isPasting p)
    (_completionsResolver p) (cachedPwshCommands p) (storage p) (promises p)
    (emitted p) (oscHandler p).

Definition set__mostRecentCompletion (v : option Item) (p : Provider) : Provider :=
  mkProvider
    (_codeCompletionsRequested p) (_gitCompletionsRequested p)
    (_lastUserDataTimestamp p) (_terminal p) (_isFilteringDirectories p) v
    (_promptInputModel p) (_currentPromptInputState p) (_enableWidget p)
    (_pathSeparator p) (_leadingLineContent p) (_cursorIndexDelta p) (isPasting p)
    (_completionsResolver p) (cachedPwshCommands p) (storage p) (promises p)
    (emitted p) (oscHandler p).

Definition set__promptInputModel (v : option PromptInput.t) (p : Provider) : Provider :=
  mkProvider
    (_codeCompletionsRequested p) (_gitCompletionsRequested p)
    (_lastUserDataTimestamp p) (_terminal p) (_isFilteringDirectories p)
    (_mostRecentCompletion p) v (_currentPromptInputState p) (_enableWidget p)
    (_pathSeparator p) (_leadingLineContent p) (_cursorIndexDelta p) (isPasting p)
    (_completionsResolver p) (cachedPwshCommands p) (storage p) (promises p)
    (emitted p) (oscHandler p).

Definition set__currentPromptInputState (v : option PromptInput.t) (p : Provider) : Provider :=
  mkProvider
    (_codeCompletionsRequested p) (_gitCompletionsRequested p)
    (_lastUserDataTimestamp p) (_terminal p) (_isFilteringDirectories p)
    (_mostRecentCompletion p) (_promptInputModel p) v (_enableWidget p)
    (_pathSeparator p) (_leadingLineContent p) (_cursorIndexDelta p) (isPasting p)
    (_completionsResolver p) (cachedPwshCommands p) (storage p) (promises p)
    (emitted p) (oscHandler p).

Definition set__pathSeparator (v : string) (p : Provider) : Provider :=
  mkProvider
    (_codeCompletionsRequested p) (_gitCompletionsRequested p)
    (_lastUserDataTimestamp p) (_terminal p) (_isFilteringDirectories p)
    (_mostRecentCompletion p) (_promptInputModel p) (_currentPromptInputState p)
    (_enableWidget p) v (_leadingLineContent p) (_cursorIndexDelta p) (isPasting p)
    (_completionsResolver p) (cachedPwshCommands p) (storage p) (promises p)
    (emitted p) (oscHandler p).

Definition set__leadingLineContent (v : option string) (p : Provider) : Provider :=
  mkProvider
    (_codeCompletionsRequested p) (_gitCompletionsRequested p)
    (_lastUserDataTimestamp p) (_terminal p) (_isFilteringDirectories p)
    (_mostRecentCompletion p) (_promptInputModel p) (_currentPromptInputState p)
    (_enableWidget p) (_pathSeparator p) v (_cursorIndexDelta p) (isPasting p)
    (_completionsResolver p) (cachedPwshCommands p) (storage p) (promises p)
    (emitted p) (oscHandler p).

Definition set__cursorIndexDelta (v : number) (p : Provider) : Provider :=
  mkProvider
    (_codeCompletionsRequested p) (_gitCompletionsRequested p)
    (_lastUserDataTimestamp p) (_terminal p) (_isFilteringDirectories p)
    (_mostRecentCompletion p) (_promptInputModel p) (_currentPromptInputState p)
    (_enableWidget p) (_pathSeparator p) (_leadingLineContent p) v (isPasting p)
    (_completionsResolver p) (cachedPwshCommands p) (storage p) (promises p)
    (emitted p) (oscHandler p).

Definition set__completionsResolver (v : option nat) (p : Provider) : Provider :=
  mkProvider
    (_codeCompletionsRequested p) (_gitCompletionsRequested p)
    (_lastUserDataTimestamp p) (_terminal p) (_isFilteringDirectories p)
    (_mostRecentCompletion p) (_promptInputModel p) (_currentPromptInputState p)
    (_enableWidget p) (_pathSeparator p) (_leadingLineContent p)
    (_cursorIndexDelta p) (isPasting p) v (cachedPwshCommands p) (storage p)
    (promises p) (emitted p) (oscHandler p).

Definition set_cachedPwshCommands (v : list Item) (p : Provider) : Provider :=
  mkProvider
    (_codeCompletionsRequested p) (_gitCompletionsRequested p)
    (_lastUserDataTimestamp p) (_terminal p) (_isFilteringDirectories p)
    (_mostRecentCompletion p) (_promptInputModel p) (_currentPromptInputState p)
    (_enableWidget p) (_pathSeparator p) (_leadingLineContent p)
    (_cursorIndexDelta p) (isPasting p) (_completionsResolver p) v (storage p)
    (promises p) (emitted p) (oscHandler p).

Definition set_storage (v : option string) (p : Provider) : Provider :=
  mkProvider
    (_codeCompletionsRequested p) (_gitCompletionsRequested p)
    (_lastUserDataTimestamp p) (_terminal p) (_isFilteringDirectories p)
    (_mostRecentCompletion p) (_promptInputModel p) (_currentPromptInputState p)
    (_enableWidget p) (_pathSeparator p) (_leadingLineContent p)
    (_cursorIndexDelta p) (isPasting p) (_completionsResolver p)
    (cachedPwshCommands p) v (promises p) (emitted p) (oscHandler p).

Definition set_promises (v : list PromiseState) (p : Provider) : Provider :=
  mkProvider
    (_codeCompletionsRequested p) (_gitCompletionsRequested p)
    (_lastUserDataTimestamp p) (_terminal p) (_isFilteringDirectories p)
    (_mostRecentCompletion p) (_promptInputModel p) (_currentPromptInputState p)
    (_enableWidget p) (_pathSeparator p) (_leadingLineContent p)
    (_cursorIndexDelta p) (isPasting p) (_completionsResolver p)
    (cachedPwshCommands p) (storage p) v (emitted p) (oscHandler p).

Definition set_emitted (v : list Emitted) (p : Provider) : Provider :=
  mkProvider
    (_codeCompletionsRequested p) (_gitCompletionsRequested p)
    (_lastUserDataTimestamp p) (_terminal p) (_isFilteringDirectories p)
    (_mostRecentCompletion p) (_promptInputModel p) (_currentPromptInputState p)
    (_enableWidget p) (_pathSeparator p) (_leadingLineContent p)
    (_cursorIndexDelta p) (isPasting p) (_completionsResolver p)
    (cachedPwshCommands p) (storage p) (promises p) v (oscHandler p).

Definition set_oscHandler (v : bool) (p : Provider) : Provider :=
  mkProvider
    (_codeCompletionsRequested p) (_gitCompletionsRequested p)
    (_lastUserDataTimestamp p) (_terminal p) (_isFilteringDirectories p)
    (_mostRecentCompletion p) (_promptInputModel p) (_currentPromptInputState p)
    (_enableWidget p) (_pathSeparator p) (_leadingLineContent p)
    (_cursorIndexDelta p) (isPasting p) (_completionsResolver p)
    (cachedPwshCommands p) (storage p) (promises p) (emitted p) v.
(** *** The method monad: state, and exceptions that keep the state *)

Definition M (A : Type) : Type := Provider -> result A * Provider.

Definition ret {A} (a : A) : M A := fun p => (inr a, p).

Definition bind {A B} (c : M A) (k : A -> M B) : M B :=
  fun p =>
    match c p with
    | (inr a, p') => k a p'
    | (inl e, p') => (inl e, p')
    end.

Definition throw {A} (e : exn) : M A := fun p => (inl e, p).

Definition gets {A} (f : Provider -> A) : M A := fun p => (inr (f p), p).

Definition modify (f : Provider -> Provider) : M unit := fun p => (inr tt, f p).

Definition liftR {A} (r : result A) : M A := fun p => (r, p).

(** [emitter.fire(e)] *)
Definition fire (e : Emitted) : M unit :=
  modify (fun p => set_emitted (emitted p ++ [e]) p).

End Provider.

Arguments Provider : clear implicits.
Arguments PromiseState : clear implicits.
Arguments M : clear implicits.

Notation "'let!' x ':=' c 'in' k" := (bind c (fun x => k))
  (at level 10, x name, c at level 100, k at level 200).
Notation "c ';;;' k" := (bind c (fun _ => k))
  (at level 100, k at level 200, right associativity).

(** ** What the provider takes from its surroundings *)

Class Host (ThemeIcon : Type) : Type := {
  (** [JSON.parse]; [None] when it throws [SyntaxError] *)
  JSON_parse : string -> option JSValue;
  (** [JSON.stringify(Array.from(set.values()))] *)
  JSON_stringify : list (TerminalCompletionItem ThemeIcon) -> string;
  (** a stored element read as an [ITerminalCompletionItem] *)
  asCompletionItem : JSValue -> option (TerminalCompletionItem ThemeIcon);
  (** the static sequences of [SuggestAddon] *)
  requestCompletionsSequence : string;
  requestGlobalCompletionsSequence : string;
  requestEnableGitCompletionsSequence : string;
  requestEnableCodeCompletionsSequence : string
}.

(** [ITerminalSuggestConfiguration.builtinCompletions] *)
Record BuiltinCompletions : Type := {
  pwshCode : bool;
  pwshGit : bool
}.

(** What [_handleVSCodeSequence] returns: a boolean, or the promise of the
    asynchronous handler, already settled since that handler never awaits. *)
Inductive Handled : Type :=
| Sync (handled : bool)
| Async (settled : result bool).

Section Methods.

Context {ThemeIcon : Type} `{Codicons ThemeIcon} `{Host ThemeIcon}.

Abbreviation Item := (TerminalCompletionItem ThemeIcon).
Abbreviation Provider := (Provider ThemeIcon).
Abbreviation M := (M ThemeIcon).

(** Field initializers, given the static cache, the storage and the
    promises that exist when [new] runs. *)
Definition fieldInitializers
    (cache : list Item) (stored : option string) (ps : list (PromiseState ThemeIcon))
  : Provider :=
  {| _codeCompletionsRequested := false;
     _gitCompletionsRequested := false;
     _lastUserDataTimestamp := 0;
     _terminal := None;
     _isFilteringDirectories := false;
     _mostRecentCompletion := None;
     _promptInputModel := None;
     _currentPromptInputState := None;
     _enableWidget := true;
     _pathSeparator := sep;
     _leadingLineContent := None;
     _cursorIndexDelta := Num 0;
     isPasting := false;
     _completionsResolver := None;
     cachedPwshCommands := cache;
     storage := stored;
     promises := ps;
     emitted := [];
     oscHandler := false |}.

(** [for (const c of completions) cachedPwshCommands.add(c)]: parsed
    objects are pairwise distinct, so each one is added. *)
Definition hydrate (completions : JSValue) : M unit :=
  match completions with
  | JArr elements =>
      let! items := liftR (result_mapM
                        (fun c => match asCompletionItem c with
                                  | Some i => inr i
                                  | None => inl OutsideDeclaredType
                                  end) elements) in
      modify (fun p => set_cachedPwshCommands (cachedPwshCommands p ++ items) p)
  | JStr EmptyString => ret tt
  | JStr _ => throw OutsideDeclaredType
  | _ => throw TypeError
  end.

Definition constructor
    (providedPwshCommands : option (list Item))
    (_shellType : option TerminalShellType)
    (commandDetection : option PromptInput.t) : M unit :=
  match _shellType with
  | Some (OtherShell _) =>
      throw (Error "PwshCompletionProviderAddon can only be used with PowerShell")
  | _ =>
      (* Event.runAndSubscribe runs the listener once *)
      modify (set__promptInputModel commandDetection) ;;;
      modify (set_cachedPwshCommands (default [] providedPwshCommands)) ;;;
      let! cache := gets cachedPwshCommands in
      if (length cache =? 0)%nat then
        let! config := gets storage in
        match config with
        | Some config =>
            match JSON_parse config with
            | Some completions => hydrate completions
            | None => throw SyntaxError
            end
        | None => ret tt
        end
      else ret tt
  end.

Definition clearSuggestCache : M unit :=
  modify (set_cachedPwshCommands []) ;;;
  modify (set_storage None).

Definition activate (xterm : Terminal) (enabled : bool) : M unit :=
  modify (set__terminal (Some xterm)) ;;;
  if negb enabled then ret tt
  else modify (set_oscHandler true).

(** [this._completionsResolver(result)]: settling a settled promise does nothing. *)
Definition resolvePromise (p : nat) (result : option (list Item))
    (ps : list (PromiseState ThemeIcon)) : list (PromiseState ThemeIcon) :=
  match ps !! p with
  | Some Pending => <[p := Fulfilled result]> ps
  | _ => ps
  end.

Definition _notifyCompletions (result : option (list Item)) : M unit :=
  let! resolver := gets _completionsResolver in
  match resolver with
  | Some p =>
      modify (fun st => set_promises (resolvePromise p result (promises st)) st) ;;;
      modify (set__completionsResolver None)
  | None => ret tt
  end.

(** The new promise is the last one of [promises]. *)
Definition _waitForCompletions : M nat :=
  let! ps := gets promises in
  let promise := length ps in
  modify (set_promises (ps ++ [Pending])) ;;;
  modify (set__completionsResolver (Some promise)) ;;;
  ret promise.

(** Runs up to the [await]; the promise returned to the caller settles
    as the one of [_waitForCompletions] does. *)
Definition provideCompletions
    (value : string) (builtinCompletionsConfig : BuiltinCompletions)
    (lastAcceptedCompletionTimestamp : Z) : M nat :=
  let! codeRequested := gets _codeCompletionsRequested in
  (if negb codeRequested && pwshCode builtinCompletionsConfig then
     fire (AcceptedCompletion requestEnableCodeCompletionsSequence) ;;;
     modify (set__codeCompletionsRequested true)
   else ret tt) ;;;
  let! gitRequested := gets _gitCompletionsRequested in
  (if negb gitRequested && pwshGit builtinCompletionsConfig then
     fire (AcceptedCompletion requestEnableGitCompletionsSequence) ;;;
     modify (set__gitCompletionsRequested true)
   else ret tt) ;;;
  let! cache := gets cachedPwshCommands in
  (if (length cache =? 0)%nat then
     fire (AcceptedCompletion requestGlobalCompletionsSequence)
   else ret tt) ;;;
  let! lastUserData := gets _lastUserDataTimestamp in
  (if (lastAcceptedCompletionTimestamp <? lastUserData)%Z then
     fire (AcceptedCompletion requestCompletionsSequence) ;;;
     fire DidRequestCompletions
   else ret tt) ;;;
  _waitForCompletions.

(** [args[i].length]; reading [length] of [undefined] throws. *)
Definition lengthOf (a : option string) : result nat :=
  match a with
  | Some s => inr (String.length s)
  | None => inl TypeError
  end.

(** [prefix.substring(replacementIndex, replacementIndex + replacementLength + this._cursorIndexDelta)]
    with [replacementIndex = 0] and [replacementLength = cursorIndex] *)
Definition leadingLineContentOf (model : PromptInput.t) (cursorIndexDelta : number) : string :=
  let replacementIndex := Num 0 in
  let replacementLength := Num (PromptInput.cursorIndex model) in
  substring (PromptInput.prefix model) replacementIndex
    (number_add (number_add replacementIndex replacementLength) cursorIndexDelta).

(** [!leading.includes(' ') && firstChar !== '['] *)
Definition isGlobalCommandOf (leading : string) : bool :=
  let firstCharIsBracket :=
    match leading with
    | String c _ => Ascii.eqb c "["
    | EmptyString => false
    end in
  negb (Str.includes " " leading) && negb firstCharIsBracket.

(** [data.slice(command.length + args[0].length + args[1].length + args[2].length + 4)] *)
Definition payloadOf (data command : string) (args : list string) : result string :=
  result_bind (lengthOf (args !! 0%nat)) (fun l0 =>
  result_bind (lengthOf (args !! 1%nat)) (fun l1 =>
  result_bind (lengthOf (args !! 2%nat)) (fun l2 =>
  inr (Str.drop (String.length command + l0 + l1 + l2 + 4) data)))).

(** [args.length === 0 || payload.length === 0 ? undefined : JSON.parse(payload)] *)
Definition rawCompletionsOf (data command : string) (args : list string) : result JSValue :=
  result_bind (payloadOf data command args) (fun payload =>
  if (length args =? 0)%nat || (String.length payload =? 0)%nat then inr JUndefined
  else match JSON_parse payload with
       | Some v => inr v
       | None => inl SyntaxError
       end).

(** [if (mostRecent?.isDirectory && completions.every(c => c.isDirectory)) completions.push(mostRecent)] *)
Definition carryOver (mostRecent : option Item) (completions : list Item) : list Item :=
  match mostRecent with
  | Some c =>
      if isDirectory c && forallb isDirectory completions
      then completions ++ [c] else completions
  | None => completions
  end.

(** The value of [normalizePathSeparator(...)] is kept in a local that is
    not read again; the call is left out. *)
Definition _handleCompletionsSequence
    (terminal : Terminal) (data command : string) (args : list string) : M unit :=
  fire DidReceiveCompletions ;;;
  let! enableWidget := gets _enableWidget in
  let! promptInputModel := gets _promptInputModel in
  match promptInputModel with
  | Some model =>
      if negb (element terminal) || negb enableWidget then _notifyCompletions None
      else if negb (isAncestorOfActiveElement terminal) then _notifyCompletions None
      else
        let replacementIndex := Num 0 in
        let replacementLength := Num (PromptInput.cursorIndex model) in
        let state := model in
        modify (set__currentPromptInputState (Some state)) ;;;
        let! delta := gets _cursorIndexDelta in
        let leading := leadingLineContentOf state delta in
        modify (set__leadingLineContent (Some leading)) ;;;
        let isGlobalCommand := isGlobalCommandOf leading in
        let replacementIndex :=
          if negb isGlobalCommand then parseInt (args !! 0%nat) else replacementIndex in
        let replacementLength :=
          if negb isGlobalCommand then parseInt (args !! 1%nat) else replacementLength in
        (if negb isGlobalCommand
         then modify (set__leadingLineContent (Some (PromptInput.prefix model)))
         else ret tt) ;;;
        let! rawCompletions := liftR (rawCompletionsOf data command args) in
        let! completions :=
          liftR (parseCompletionsFromShell rawCompletions replacementIndex replacementLength) in
        let! cache := gets cachedPwshCommands in
        let completions := if isGlobalCommand then completions ++ cache else completions in
        let! mostRecent := gets _mostRecentCompletion in
        let completions := carryOver mostRecent completions in
        modify (set__mostRecentCompletion None) ;;;
        modify (set__cursorIndexDelta
                  (number_sub (Num (PromptInput.cursorIndex state))
                              (number_add replacementIndex replacementLength))) ;;;
        let filtering := existsb isDirectory completions in
        modify (set__isFilteringDirectories filtering) ;;;
        (if filtering then
           let firstDirCompletion := List.find isDirectory completions in
           modify (set__pathSeparator
                     (default sep (c ← firstDirCompletion; matchSep (label c))))
         else ret tt) ;;;
        _notifyCompletions (Some completions)
  | None => _notifyCompletions None
  end.

(** The body of the [async] handler; what it throws rejects its promise. *)
Definition _handleCompletionsPwshCommandsSequence
    (terminal : Terminal) (data command : string) (args : list string) : M bool :=
  let type := args !! 0%nat in
  let! typeLength := liftR (lengthOf type) in
  let! rawCompletions :=
    match JSON_parse (Str.drop (String.length command + typeLength + 2) data) with
    | Some v => ret v
    | None => throw SyntaxError
    end in
  let! completions := liftR (parseCompletionsFromShell rawCompletions (Num 0) (Num 0)) in
  modify (set_cachedPwshCommands []) ;;;
  modify (fun p => set_cachedPwshCommands (cachedPwshCommands p ++ completions) p) ;;;
  let! set := gets cachedPwshCommands in
  modify (set_storage (Some (JSON_stringify set))) ;;;
  ret true.

(** The window a batch is decoded with. *)
Definition windowOf (st : Provider) (model : PromptInput.t) (args : list string) : number * number :=
  if isGlobalCommandOf (leadingLineContentOf model (_cursorIndexDelta st))
  then (Num 0, Num (PromptInput.cursorIndex model))
  else (parseInt (args !! 0%nat), parseInt (args !! 1%nat)).

(** The list a batch resolves the request with. *)
Definition completionsOf (st : Provider) (model : PromptInput.t)
    (decoded : list Item)
  : list Item :=
  carryOver (_mostRecentCompletion st)
    (if isGlobalCommandOf (leadingLineContentOf model (_cursorIndexDelta st))
     then decoded ++ cachedPwshCommands st else decoded).

Definition _handleVSCodeSequence (data : string) : M Handled :=
  let! terminal := gets _terminal in
  match terminal with
  | None => ret (Sync false)
  | Some terminal =>
      match Str.split ";" data with
      | command :: args =>
          if String.eqb command "Completions" then
            _handleCompletionsSequence terminal data command args ;;;
            ret (Sync true)
          else if String.eqb command "CompletionsPwshCommands" then
            fun p =>
              let '(r, p') := _handleCompletionsPwshCommandsSequence terminal data command args p in
              (inr (Async r), p')
          else ret (Sync false)
      | [] => ret (Sync false)
      end
  end.

End Methods.

(** ** The provider as a reactive system *)

(** What can happen to a constructed provider. *)
Inductive Event : Type :=
(** the suggest service calls [provideCompletions] *)
| Request (value : string) (config : BuiltinCompletions) (lastAcceptedCompletionTimestamp : Z)
(** xterm parses an OSC 633 sequence *)
| Osc (data : string)
(** [xterm.onData] at time [now] *)
| Data (now : Z)
(** [onDidChangeConfiguration] *)
| ConfigurationChanged (affectsEnabled : bool)
(** [activate(xterm)] under [config.enabled] *)
| Activate (xterm : Terminal) (enabled : bool)
(** the terminal is attached, detached, focused or blurred *)
| TerminalChanged (xterm : Terminal)
(** a capability is added or removed, or the prompt input changes *)
| PromptChanged (commandDetection : option PromptInput.t).

Section Reactive.

Context {ThemeIcon : Type} `{Codicons ThemeIcon} `{Host ThemeIcon}.

Definition step (ev : Event) (st : Provider ThemeIcon) : Provider ThemeIcon :=
  match ev with
  | Request value config lastAccepted =>
      snd (provideCompletions value config lastAccepted st)
  | Osc data =>
      if oscHandler st then snd (_handleVSCodeSequence data st) else st
  | Data now =>
      match _terminal st with
      | Some _ => set__lastUserDataTimestamp now st
      | None => st
      end
  | ConfigurationChanged affectsEnabled =>
      if affectsEnabled then snd (clearSuggestCache st) else st
  | Activate xterm enabled => snd (activate xterm enabled st)
  | TerminalChanged xterm =>
      match _terminal st with
      | Some _ => set__terminal (Some xterm) st
      | None => st
      end
  | PromptChanged commandDetection => set__promptInputModel commandDetection st
  end.

Definition run (evs : list Event) (st : Provider ThemeIcon) : Provider ThemeIcon :=
  fold_left (fun st ev => step ev st) evs st.

(** A pending promise whose resolver is no longer stored. *)
Definition Orphan (p : nat) (st : Provider ThemeIcon) : Prop :=
  promises st !! p = Some Pending /\ _completionsResolver st <> Some p.

(** A computation that keeps an invariant of the provider, whether it
    returns or throws. *)
Definition Preserves (I : Provider ThemeIcon -> Prop) {A} (c : M ThemeIcon A) : Prop :=
  forall st, I st -> I (snd (c st)).

(** No completion is remembered as the most recent one. *)
Definition NoRecent (st : Provider ThemeIcon) : Prop :=
  _mostRecentCompletion st = None.

(** A computation that returns normally and leaves the promises alone. *)
Definition Silent {A} (c : M ThemeIcon A) : Prop :=
  forall st, exists a,
    fst (c st) = inr a /\ promises (snd (c st)) = promises st.

End Reactive.

(** ** The two wire forms of a batch, in the words of the specification *)

(** An optional component: the string, or [null] / [undefined] / nothing. *)
Definition encodesOptional (v : JSValue) (o : option string) : Prop :=
  match o with
  | Some s => v = JStr s
  | None => v = JNull \/ v = JUndefined
  end.

(** Object form: [{ CompletionText, ResultType, ToolTip?, CustomIcon? }]. *)
Definition ObjectFormOf (c : PwshCompletion) (v : JSValue) : Prop :=
  exists fields,
    v = JObj fields /\
    getField "CompletionText" fields = JStr (CompletionText c) /\
    getField "ResultType" fields = JNum (ResultType c) /\
    encodesOptional (getField "ToolTip" fields) (ToolTip c) /\
    encodesOptional (getField "CustomIcon" fields) (CustomIcon c).

(** Tuple form: index 0 text, 1 result kind, 2 tooltip, 3 custom icon id. *)
Definition TupleFormOf (c : PwshCompletion) (v : JSValue) : Prop :=
  exists elements,
    v = JArr elements /\
    getIndex 0 elements = JStr (CompletionText c) /\
    getIndex 1 elements = JNum (ResultType c) /\
    encodesOptional (getIndex 2 elements) (ToolTip c) /\
    encodesOptional (getIndex 3 elements) (CustomIcon c).

(** ** Patterns of the specification, as propositions *)

(** The label ends in [\] or [/]. *)
Definition EndsInSeparator (s : string) : Prop :=
  exists pre c, s = pre +:+ String c EmptyString /\ (c = "\"%char \/ c = "/"%char).

(** [c] is the leftmost [\] or [/] of the label. *)
Definition FirstSeparator (s : string) (c : ascii) : Prop :=
  exists pre post,
    s = pre +:+ String c post /\ (c = "\"%char \/ c = "/"%char) /\
    Str.all (fun d => negb (isPathSeparator d)) pre = true.

Definition NoSeparator (s : string) : Prop :=
  Str.all (fun d => negb (isPathSeparator d)) s = true.

(** The label ends in a dot and two to four letters or digits. *)
Definition EndsInExtension (s : string) : Prop :=
  exists pre ext,
    s = pre +:+ String "." ext /\
    (2 <= String.length ext <= 4)%nat /\
    Str.all isAlnumIgnoreCase ext = true.

(** [^[A-Za-z0-9_.]+\.[a-z0-9]{2,4}$] *)
Definition MatchesExecutablePattern (s : string) : Prop :=
  exists pre ext,
    s = pre +:+ String "." ext /\
    pre <> EmptyString /\
    Str.all (fun c => isLower c || isUpper c || isDigit c
                      || Ascii.eqb c "_" || Ascii.eqb c ".") pre = true /\
    (2 <= String.length ext <= 4)%nat /\
    Str.all (fun c => isLower c || isDigit c) ext = true.

(** [join] undoes [split]. *)
Fixpoint join (d : ascii) (pieces : list string) : string :=
  match pieces with
  | [] => EmptyString
  | [p] => p
  | p :: ps => p +:+ String d (join d ps)
  end.

(** ** A sample host, for closed examples *)

Definition sampleIcons : list (string * string) :=
  [("symbolText", "symbol-text"); ("history", "history");
   ("symbolMethod", "symbol-method"); ("symbolFile", "symbol-file");
   ("folder", "folder"); ("symbolProperty", "symbol-property");
   ("symbolVariable", "symbol-variable"); ("symbolValue", "symbol-value");
   ("symbolNamespace", "symbol-namespace"); ("symbolInterface", "symbol-interface");
   ("symbolKeyword", "symbol-keyword"); ("terminalPowershell", "terminal-powershell")].

Fixpoint assoc (k : string) (l : list (string * string)) : option string :=
  match l with
  | [] => None
  | (k', v) :: rest => if String.eqb k k' then Some v else assoc k rest
  end.

(** Icons are their ids; the host is a POSIX one. *)
#[local] Instance sampleCodicons : Codicons string := {|
  Codicon_has id := match assoc id sampleIcons with Some _ => true | None => false end;
  Codicon_get id := assoc id sampleIcons;
  symbolText := "symbol-text";
  history := "history";
  symbolMethod := "symbol-method";
  symbolFile := "symbol-file";
  folder := "folder";
  symbolProperty := "symbol-property";
  symbolVariable := "symbol-variable";
  symbolValue := "symbol-value";
  symbolNamespace := "symbol-namespace";
  symbolInterface := "symbol-interface";
  symbolKeyword := "symbol-keyword";
  sep := "/"
|}.

(** The double quote. *)
Definition dq : string := String (ascii_of_nat 34) EmptyString.

(** The payload [[["src",4]]] and an unparsable text. *)
Definition samplePayload : string := "[[" +:+ dq +:+ "src" +:+ dq +:+ ",4]]".
Definition sampleGarbage : string := "{".

(** [JSON.parse] on the texts the examples use: two well-formed ones and
    the malformed [sampleGarbage]; no example parses any other text. *)
Definition sampleParse (text : string) : option JSValue :=
  if String.eqb text "[]" then Some (JArr [])
  else if String.eqb text samplePayload then Some (JArr [JArr [JStr "src"; JNum 4]])
  else None.

#[local] Instance sampleHost : Host string := {|
  JSON_parse := sampleParse;
  (* a stand-in: no example reads the stored text back *)
  JSON_stringify items := join "," (map label items);
  asCompletionItem _ := None;
  requestCompletionsSequence := "e";
  requestGlobalCompletionsSequence := "f";
  requestEnableGitCompletionsSequence := "g";
  requestEnableCodeCompletionsSequence := "h"
|}.

Definition sampleTerminal : Terminal :=
  {| element := true; isAncestorOfActiveElement := true |}.

Definition samplePrompt : PromptInput.t :=
  {| PromptInput.value := "cd sr";
     PromptInput.prefix := "cd sr";
     PromptInput.suffix := EmptyString;
     PromptInput.cursorIndex := 5;
     PromptInput.ghostTextIndex := -1 |}.

(** A provider constructed with command detection present and nothing
    stored, then activated in a focused terminal with suggestions enabled. *)
Definition sampleProvider : Provider string :=
  run [Activate sampleTerminal true]
    (snd (constructor None (Some PowerShell) (Some samplePrompt)
            (fieldInitializers [] None []))).

Definition sampleConfig : BuiltinCompletions :=
  {| pwshCode := false; pwshGit := false |}.

Definition sampleDirectory : TerminalCompletionItem string :=
  {| label := "src/"; icon := "folder"; detail := "src/";
     isFile := false; isDirectory := true; isKeyword := false;
     replacementIndex := Num 3; replacementLength := Num 2 |}.

(** The same provider after a keystroke and a request: one promise, pending. *)
Definition sampleAwaiting : Provider string :=
  step (Request EmptyString sampleConfig 0) (step (Data 5) sampleProvider).

(** ..., in a terminal that has lost focus. *)
Definition sampleBlurred : Terminal :=
  {| element := true; isAncestorOfActiveElement := false |}.

Definition sampleUnfocused : Provider string :=
  step (TerminalChanged sampleBlurred) sampleAwaiting.

(** ..., with a directory as the most recent completion (a state the
    methods themselves never produce, see [most_recent_completion_never_set]). *)
Definition sampleWithRecent : Provider string :=
  set__mostRecentCompletion (Some sampleDirectory) sampleAwaiting.

Definition sampleGit : PwshCompletion :=
  {| CompletionText := "git.exe"; ResultType := 2; ToolTip := None; CustomIcon := None |}.

Definition sampleFoo : PwshCompletion :=
  {| CompletionText := "foo"; ResultType := 4;
     ToolTip := Some "a folder"; CustomIcon := None |}.

Definition sampleDynamicKeyword : PwshCompletion :=
  {| CompletionText := "Configuration"; ResultType := 13;
     ToolTip := None; CustomIcon := None |}.

(** ** Notions used by the further properties *)

(** How often the sequence [seq] was written to the shell. *)
Fixpoint occurrences (seq : string) (l : list Emitted) : nat :=
  match l with
  | [] => 0
  | AcceptedCompletion s :: l' =>
      (if String.eqb s seq then 1 else 0) + occurrences seq l'
  | _ :: l' => occurrences seq l'
  end.

(** A sequence was written at most once, and not at all while its flag
    is still unset. *)
Definition SentAtMostOnce (requested : bool) (seq : string) (l : list Emitted) : Prop :=
  (occurrences seq l <= 1)%nat /\ (requested = false -> occurrences seq l = 0%nat).

Section Notions.

Context {ThemeIcon : Type} `{Codicons ThemeIcon} `{Host ThemeIcon}.

(** The four sequences of [SuggestAddon] are pairwise different. *)
Definition DistinctSequences : Prop :=
  requestEnableCodeCompletionsSequence <> requestEnableGitCompletionsSequence
  /\ requestEnableCodeCompletionsSequence <> requestGlobalCompletionsSequence
  /\ requestEnableCodeCompletionsSequence <> requestCompletionsSequence
  /\ requestEnableGitCompletionsSequence <> requestGlobalCompletionsSequence
  /\ requestEnableGitCompletionsSequence <> requestCompletionsSequence
  /\ requestGlobalCompletionsSequence <> requestCompletionsSequence.

(** What one call of [provideCompletions] emits, in order. *)
Definition requestSignals (st : Provider ThemeIcon) (config : BuiltinCompletions)
    (lastAccepted : Z) : list Emitted :=
  (if negb (_codeCompletionsRequested st) && pwshCode config
   then [AcceptedCompletion requestEnableCodeCompletionsSequence] else [])
  ++ (if negb (_gitCompletionsRequested st) && pwshGit config
      then [AcceptedCompletion requestEnableGitCompletionsSequence] else [])
  ++ (if (length (cachedPwshCommands st) =? 0)%nat
      then [AcceptedCompletion requestGlobalCompletionsSequence] else [])
  ++ (if (lastAccepted <? _lastUserDataTimestamp st)%Z
      then [AcceptedCompletion requestCompletionsSequence; DidRequestCompletions] else []).

(** The stored resolver, if any, belongs to a promise that is pending. *)
Definition ResolverPending (st : Provider ThemeIcon) : Prop :=
  forall p, _completionsResolver st = Some p -> promises st !! p = Some Pending.

(** A provider right after [new]. *)
Definition constructed
    (providedPwshCommands : option (list (TerminalCompletionItem ThemeIcon)))
    (shellType : option TerminalShellType) (commandDetection : option PromptInput.t)
    (cache : list (TerminalCompletionItem ThemeIcon)) (stored : option string)
    (ps : list (PromiseState ThemeIcon)) : Provider ThemeIcon :=
  snd (constructor providedPwshCommands shellType commandDetection
         (fieldInitializers cache stored ps)).

End Notions.

(** ** More samples *)

(** A prompt with no argument typed yet. *)
Definition sampleGlobalPrompt : PromptInput.t :=
  {| PromptInput.value := "gi";
     PromptInput.prefix := "gi";
     PromptInput.suffix := EmptyString;
     PromptInput.cursorIndex := 2;
     PromptInput.ghostTextIndex := -1 |}.

Definition sampleEnableBoth : BuiltinCompletions :=
  {| pwshCode := true; pwshGit := true |}.

(** The global-commands message carrying [samplePayload]. *)
Definition sampleCommandsMessage : string :=
  "CompletionsPwshCommands;x;" +:+ samplePayload.

(** What that message puts in the cache. *)
Definition sampleCommand : TerminalCompletionItem string :=
  {| label := "src/"; icon := "folder"; detail := "src/";
     isFile := false; isDirectory := true; isKeyword := false;
     replacementIndex := Num 0; replacementLength := Num 0 |}.

(** A provider at that prompt, with the cache filled and a request pending. *)
Definition sampleGlobalAwaiting : Provider string :=
  run [Activate sampleTerminal true; Osc sampleCommandsMessage; Data 5;
       Request EmptyString sampleConfig 0]
    (constructed None (Some PowerShell) (Some sampleGlobalPrompt) [] None []).

(** A host whose stored text reads back: the text [stored] stands for the
    serialization of [[sampleCommand]]. *)
Definition storedCommand : JSValue :=
  JObj [("label", JStr "src/"); ("isDirectory", JBool true)].

Definition storeHost : Host string := {|
  JSON_parse text :=
    if String.eqb text "stored" then Some (JArr [storedCommand])
    else if String.eqb text "null" then Some JNull
    else sampleParse text;
  JSON_stringify items := match items with [] => "[]" | _ => "stored" end;
  asCompletionItem v :=
    match v with
    | JObj fields =>
        match getField "label" fields with
        | JStr "src/" => Some sampleCommand
        | _ => None
        end
    | _ => None
    end;
  requestCompletionsSequence := "e";
  requestGlobalCompletionsSequence := "f";
  requestEnableGitCompletionsSequence := "g";
  requestEnableCodeCompletionsSequence := "h"
|}.

(** * Properties *)

(** ** Strings and patterns *)

Lemma append_cons (x : ascii) (a b : string) : String x a +:+ b = String x (a +:+ b).
Proof. reflexivity. Qed.

Lemma append_nil (b : string) : EmptyString +:+ b = b.
Proof. reflexivity. Qed.

(** [String.append] does not unfold under [simpl]. *)
Ltac str_simpl := rewrite ?append_cons, ?append_nil; simpl.

Lemma append_assoc (a b c : string) : (a +:+ b) +:+ c = a +:+ (b +:+ c).
Proof. induction a as [|x a IH]; str_simpl; [reflexivity | now f_equal]. Qed.

Lemma last_snoc (s : string) (c : ascii) : Str.last (s +:+ String c EmptyString) = Some c.
Proof.
  induction s as [|x s IH]; str_simpl; [reflexivity |].
  rewrite IH. destruct s; reflexivity.
Qed.

Lemma last_Some_snoc (s : string) (c : ascii) :
  Str.last s = Some c -> exists pre, s = pre +:+ String c EmptyString.
Proof.
  induction s as [|x s IH]; simpl; [discriminate |].
  destruct s as [|y s].
  - intros [= ->]. now exists EmptyString.
  - intros Hl. destruct (IH Hl) as [pre Hpre]. exists (String x pre).
    str_simpl. now rewrite <- Hpre.
Qed.

Lemma isPathSeparator_spec (c : ascii) :
  isPathSeparator c = true <-> (c = "\"%char \/ c = "/"%char).
Proof.
  unfold isPathSeparator. rewrite orb_true_iff, !Ascii.eqb_eq. reflexivity.
Qed.

Lemma matchesTrailingSeparator_spec (s : string) :
  matchesTrailingSeparator s = true <-> EndsInSeparator s.
Proof.
  unfold matchesTrailingSeparator, EndsInSeparator. split.
  - destruct (Str.last s) as [c|] eqn:Hl; [| discriminate].
    intros Hc. destruct (last_Some_snoc _ _ Hl) as [pre ->].
    exists pre, c. split; [reflexivity | now apply isPathSeparator_spec].
  - intros (pre & c & -> & Hc). rewrite last_snoc. now apply isPathSeparator_spec.
Qed.

Lemma matchesDashOrPlus_spec (s : string) :
  matchesDashOrPlus s = true <-> (s = "-" \/ s = "+").
Proof. unfold matchesDashOrPlus. rewrite orb_true_iff, !String.eqb_eq. reflexivity. Qed.

Lemma matchesDotOrDotDot_spec (s : string) :
  matchesDotOrDotDot s = true <-> (s = "." \/ s = "..").
Proof. unfold matchesDotOrDotDot. rewrite orb_true_iff, !String.eqb_eq. reflexivity. Qed.

Lemma find_first (p : ascii -> bool) (pre post : string) (c : ascii) :
  Str.all (fun d => negb (p d)) pre = true -> p c = true ->
  Str.find p (pre +:+ String c post) = Some c.
Proof.
  induction pre as [|x pre IH]; str_simpl; intros Hpre Hc.
  - now rewrite Hc.
  - apply andb_true_iff in Hpre as [Hx Hpre].
    apply negb_true_iff in Hx. rewrite Hx. now apply IH.
Qed.

Lemma find_none (p : ascii -> bool) (s : string) :
  Str.all (fun d => negb (p d)) s = true -> Str.find p s = None.
Proof.
  induction s as [|x s IH]; simpl; [reflexivity |].
  intros Hs. apply andb_true_iff in Hs as [Hx Hs].
  apply negb_true_iff in Hx. rewrite Hx. now apply IH.
Qed.

Lemma matchSep_first (s : string) (c : ascii) :
  FirstSeparator s c -> matchSep s = Some (String c EmptyString).
Proof.
  intros (pre & post & -> & Hc & Hpre). unfold matchSep.
  rewrite (find_first isPathSeparator pre post c Hpre); [reflexivity |].
  now apply isPathSeparator_spec.
Qed.

Lemma matchSep_none (s : string) : NoSeparator s -> matchSep s = None.
Proof. intros Hs. unfold matchSep. now rewrite (find_none _ _ Hs). Qed.

Lemma matchSep_is_separator (s t : string) :
  matchSep s = Some t -> matchesTrailingSeparator (s +:+ t) = true.
Proof.
  unfold matchSep. destruct (Str.find isPathSeparator s) as [c|] eqn:Hf; [| discriminate].
  intros [= <-]. unfold matchesTrailingSeparator. rewrite last_snoc.
  clear -Hf. induction s as [|x s IH]; simpl in Hf; [discriminate |].
  destruct (isPathSeparator x) eqn:Hx; [now injection Hf as <- | now apply IH].
Qed.

Lemma matchesExtension_append (pre t : string) :
  matchesExtension t = true -> matchesExtension (pre +:+ t) = true.
Proof.
  intros Ht. induction pre as [|x pre IH]; str_simpl; [exact Ht |].
  rewrite IH. apply orb_true_r.
Qed.

Lemma matchesExtension_intro (s : string) :
  EndsInExtension s -> matchesExtension s = true.
Proof.
  intros (pre & ext & -> & [Hlo Hhi] & Hall).
  apply matchesExtension_append.
  destruct ext as [|e ext]; [simpl in Hlo; lia |].
  cbn [matchesExtension]. apply orb_true_iff. left.
  cbn [matchesExtensionHere]. rewrite Hall.
  apply Nat.leb_le in Hlo, Hhi. now rewrite Hlo, Hhi.
Qed.

Lemma matchesExtension_elim (s : string) :
  matchesExtension s = true -> EndsInExtension s.
Proof.
  induction s as [|x s IH].
  - simpl. discriminate.
  - cbn [matchesExtension]. intros Hm. apply orb_true_iff in Hm as [Hm | Hm].
    + unfold matchesExtensionHere in Hm.
      destruct (Ascii.eqb_spec x ".") as [-> | Hne].
      * apply andb_true_iff in Hm as [Hm Hall]. apply andb_true_iff in Hm as [Hlo Hhi].
        apply Nat.leb_le in Hlo, Hhi.
        exists EmptyString, s. now repeat split.
      * exfalso. destruct x as [[] [] [] [] [] [] [] []]; try discriminate. now apply Hne.
    + destruct (IH Hm) as (pre & ext & -> & Hlen & Hall).
      exists (String x pre), ext. now repeat split.
Qed.

Lemma all_weaken (p q : ascii -> bool) (s : string) :
  (forall c, p c = true -> q c = true) -> Str.all p s = true -> Str.all q s = true.
Proof.
  intros Hpq. induction s as [|x s IH]; simpl; [reflexivity |].
  intros Hs. apply andb_true_iff in Hs as [Hx Hs].
  now rewrite (Hpq _ Hx), IH.
Qed.

Lemma executablePattern_extension (s : string) :
  MatchesExecutablePattern s -> EndsInExtension s.
Proof.
  intros (pre & ext & -> & _ & _ & Hlen & Hall).
  exists pre, ext. repeat split; try apply Hlen.
  revert Hall. apply all_weaken. intros c. unfold isAlnumIgnoreCase.
  destruct (isLower c), (isDigit c), (isUpper c); simpl; congruence.
Qed.

(** ** The normalizer *)

Section Normalizer.

Context {ThemeIcon : Type} `{Codicons ThemeIcon}.

Lemma reclassified_kind (raw : PwshCompletion) (ri rl : number) :
  ResultType (snd (rawCompletionToTerminalCompletionItem' raw ri rl)) =
  if (ResultType raw =? 2)%Z && matchesExtension (CompletionText raw)
  then 3%Z else ResultType raw.
Proof.
  unfold rawCompletionToTerminalCompletionItem'. simpl.
  destruct ((ResultType raw =? 2)%Z && matchesExtension (CompletionText raw)); reflexivity.
Qed.

Lemma flags_from_reclassified_kind (raw : PwshCompletion) (ri rl : number) :
  let k := ResultType (snd (rawCompletionToTerminalCompletionItem' raw ri rl)) in
  let item := rawCompletionToTerminalCompletionItem raw ri rl in
  isFile item = (k =? 3)%Z /\ isDirectory item = (k =? 4)%Z /\ isKeyword item = (k =? 12)%Z.
Proof.
  unfold rawCompletionToTerminalCompletionItem, rawCompletionToTerminalCompletionItem'. simpl.
  destruct ((ResultType raw =? 2)%Z && matchesExtension (CompletionText raw)); auto.
Qed.

(** C4, as the code has it: [isKeyword] is set exactly for result kind 12,
    before and after reclassification; kind 13 shares the keyword icon but
    does not set the flag. *)
Theorem isKeyword_iff_kind_12 (raw : PwshCompletion) (ri rl : number) :
  (isKeyword (rawCompletionToTerminalCompletionItem raw ri rl) = true
   <-> ResultType (snd (rawCompletionToTerminalCompletionItem' raw ri rl)) = 12%Z)
  /\ (isKeyword (rawCompletionToTerminalCompletionItem raw ri rl) = true
      <-> ResultType raw = 12%Z)
  /\ pwshTypeToIconMap (ThemeIcon := ThemeIcon) 13 = pwshTypeToIconMap 12.
Proof.
  destruct (flags_from_reclassified_kind raw ri rl) as (_ & _ & Hk).
  cbv zeta in Hk. rewrite Hk, Z.eqb_eq, reclassified_kind.
  split; [reflexivity |]. split; [| reflexivity].
  destruct ((ResultType raw =? 2)%Z && matchesExtension (CompletionText raw)) eqn:Hx;
    [| reflexivity].
  apply andb_true_iff in Hx as [Hx _]. apply Z.eqb_eq in Hx.
  split; intros E; rewrite ?Hx in *; discriminate E.
Qed.

(** C5, as the code has it: a custom icon id that [Codicon] has wins; one
    that [Codicon] does not have gives the generic symbol icon whatever the
    kind; the kind table is used when no id is given (or the id is empty,
    or its entry is undefined), with the generic symbol icon for kinds
    outside 0..13. *)
Theorem getIcon_selection (k : Z) :
  (forall id i, id <> EmptyString -> Codicon_has id = true -> Codicon_get id = Some i ->
                getIcon k (Some id) = i)
  /\ (forall id, id <> EmptyString -> Codicon_has id = false ->
                 getIcon k (Some id) = symbolText)
  /\ (forall id, id <> EmptyString -> Codicon_has id = true -> Codicon_get id = None ->
                 getIcon k (Some id) = fromMap k)
  /\ getIcon k None = fromMap k
  /\ getIcon k (Some EmptyString) = fromMap k
  /\ ((0 <= k <= 13)%Z -> pwshTypeToIconMap (ThemeIcon := ThemeIcon) k <> None)
  /\ (~ (0 <= k <= 13)%Z -> fromMap k = symbolText).
Proof.
  unfold getIcon, fromMap. repeat split.
  - intros id i Hid Hhas Hget. destruct id; [congruence |]. simpl. now rewrite Hhas, Hget.
  - intros id Hid Hhas. destruct id; [congruence |]. simpl. now rewrite Hhas.
  - intros id Hid Hhas Hget. destruct id; [congruence |]. simpl. now rewrite Hhas, Hget.
  - intros [Hlo Hhi].
    assert (Hk : In k [0; 1; 2; 3; 4; 5; 6; 7; 8; 9; 10; 11; 12; 13]%Z)
      by (simpl; lia).
    simpl in Hk. repeat (destruct Hk as [<- | Hk]; [discriminate |]). contradiction.
  - intros Hout. destruct k as [| p | p]; [lia | | reflexivity].
    do 5 (try (destruct p as [p | p |]; try reflexivity; try lia)).
Qed.

(** C7: for a directory, a separator is appended exactly when the label
    neither ends in one nor is ".", "..", "-" or "+"; it is the leftmost
    separator of the label, else the host's; a label that ends in a
    separator is left as it is, so normalizing the result again changes
    nothing. *)
Theorem directory_suffix (raw : PwshCompletion) (ri rl : number)
    (Hkind : ResultType raw = 4%Z) :
  let text := CompletionText raw in
  let item := rawCompletionToTerminalCompletionItem raw ri rl in
  let kept := EndsInSeparator text \/ text = "." \/ text = ".." \/ text = "-" \/ text = "+" in
  (kept -> label item = text)
  /\ (~ kept -> forall c, FirstSeparator text c -> label item = text +:+ String c EmptyString)
  /\ (~ kept -> NoSeparator text -> label item = text +:+ sep)
  /\ (sep = "/" \/ sep = "\" ->
      forall ri' rl',
        label (rawCompletionToTerminalCompletionItem
                 {| CompletionText := label item; ResultType := 4;
                    ToolTip := ToolTip raw; CustomIcon := CustomIcon raw |} ri' rl')
        = label item).
Proof.
  intros text item kept.
  assert (Hlabel : forall r i l, ResultType r = 4%Z ->
    label (rawCompletionToTerminalCompletionItem r i l) =
    if negb (matchesDashOrPlus (CompletionText r))
       && negb (matchesDotOrDotDot (CompletionText r))
       && negb (matchesTrailingSeparator (CompletionText r))
    then CompletionText r +:+ default sep (matchSep (CompletionText r))
    else CompletionText r).
  { intros r i l Hr. unfold rawCompletionToTerminalCompletionItem,
      rawCompletionToTerminalCompletionItem'. simpl. rewrite Hr. reflexivity. }
  assert (Hkept : kept <->
    negb (matchesDashOrPlus text) && negb (matchesDotOrDotDot text)
    && negb (matchesTrailingSeparator text) = false).
  { unfold kept. rewrite <- matchesTrailingSeparator_spec.
    pose proof (matchesDashOrPlus_spec text) as Hd.
    pose proof (matchesDotOrDotDot_spec text) as Hp.
    destruct (matchesDashOrPlus text), (matchesDotOrDotDot text),
      (matchesTrailingSeparator text); simpl; intuition congruence. }
  subst item. rewrite (Hlabel raw ri rl Hkind). fold text.
  destruct (negb (matchesDashOrPlus text) && negb (matchesDotOrDotDot text)
            && negb (matchesTrailingSeparator text)) eqn:Hc.
  - assert (Hnk : ~ kept) by (rewrite Hkept; congruence).
    repeat split.
    + intros Hk. contradiction.
    + intros _ c Hfirst. now rewrite (matchSep_first _ _ Hfirst).
    + intros _ Hnone. now rewrite (matchSep_none _ Hnone).
    + intros Hsep ri' rl'. rewrite Hlabel by reflexivity. simpl.
      assert (Hends : matchesTrailingSeparator (text +:+ default sep (matchSep text)) = true).
      { destruct (matchSep text) as [t|] eqn:Hm; simpl.
        - now apply matchSep_is_separator.
        - unfold matchesTrailingSeparator.
          destruct Hsep as [-> | ->]; now rewrite last_snoc. }
      rewrite Hends, !andb_false_r. reflexivity.
  - assert (Hk : kept) by (now apply Hkept).
    repeat split; try (intros Hnk; contradiction); try reflexivity.
    intros _ ri' rl'. rewrite Hlabel by reflexivity. simpl. fold text. now rewrite Hc.
Qed.

(** C8: a kind-2 completion whose text ends in a dot and two to four
    letters or digits (in particular one matching
    [^[A-Za-z0-9_.]+\.[a-z0-9]{2,4}$]) is reclassified as a file before the
    flags are derived, and keeps the icon chosen for kind 2. *)
Theorem executable_reclassified_as_file (raw : PwshCompletion) (ri rl : number)
    (Hkind : ResultType raw = 2%Z)
    (Htext : EndsInExtension (CompletionText raw)
             \/ MatchesExecutablePattern (CompletionText raw)) :
  let item := rawCompletionToTerminalCompletionItem raw ri rl in
  ResultType (snd (rawCompletionToTerminalCompletionItem' raw ri rl)) = 3%Z
  /\ isFile item = true /\ isDirectory item = false /\ isKeyword item = false
  /\ icon item = getIcon 2 (CustomIcon raw)
  /\ (truthy (CustomIcon raw) = None -> icon item = symbolMethod).
Proof.
  assert (Hext : matchesExtension (CompletionText raw) = true).
  { apply matchesExtension_intro.
    destruct Htext as [Ht | Ht]; [exact Ht | now apply executablePattern_extension]. }
  destruct (flags_from_reclassified_kind raw ri rl) as (Hf & Hd & Hk).
  cbv zeta in *. rewrite Hf, Hd, Hk, reclassified_kind, Hkind, Hext. simpl.
  repeat split.
  - unfold rawCompletionToTerminalCompletionItem, rawCompletionToTerminalCompletionItem'.
    simpl. now rewrite Hkind.
  - intros Hnone. unfold rawCompletionToTerminalCompletionItem,
      rawCompletionToTerminalCompletionItem'. simpl.
    rewrite Hkind. unfold getIcon. now rewrite Hnone.
Qed.

End Normalizer.

(** ** The decoder *)

Lemma asOptionalString_encodes (v : JSValue) (o : option string) :
  encodesOptional v o -> asOptionalString v = inr o.
Proof.
  destruct o as [s|]; simpl.
  - intros ->. reflexivity.
  - intros [-> | ->]; reflexivity.
Qed.

Lemma mkPwshCompletion_encodes (c : PwshCompletion) (t k tip ico : JSValue) :
  t = JStr (CompletionText c) -> k = JNum (ResultType c) ->
  encodesOptional tip (ToolTip c) -> encodesOptional ico (CustomIcon c) ->
  mkPwshCompletion t k tip ico = inr c.
Proof.
  intros -> -> Htip Hico. unfold mkPwshCompletion. simpl.
  rewrite (asOptionalString_encodes _ _ Htip), (asOptionalString_encodes _ _ Hico). simpl.
  destruct c; reflexivity.
Qed.

Lemma asPwshCompletion_object (c : PwshCompletion) (v : JSValue) :
  ObjectFormOf c v -> asPwshCompletion v = inr c.
Proof.
  intros (fields & -> & Ht & Hk & Htip & Hico). simpl.
  now apply mkPwshCompletion_encodes.
Qed.

Lemma fromCompressed_tuple (c : PwshCompletion) (v : JSValue) :
  TupleFormOf c v -> fromCompressed v = inr c.
Proof.
  intros (elements & -> & Ht & Hk & Htip & Hico). simpl.
  now apply mkPwshCompletion_encodes.
Qed.

Lemma result_mapM_Forall2 {A B} (R : B -> A -> Prop) (f : A -> result B)
    (bs : list B) (l : list A) :
  (forall b a, R b a -> f a = inr b) -> Forall2 R bs l -> result_mapM f l = inr bs.
Proof.
  intros Hf. induction 1 as [| b a bs l Hba _ IH]; simpl; [reflexivity |].
  now rewrite (Hf _ _ Hba), IH.
Qed.

Section Decoder.

Context {ThemeIcon : Type} `{Codicons ThemeIcon}.

Lemma parse_objects (cs : list PwshCompletion) (os : list JSValue) (ri rl : number) :
  Forall2 ObjectFormOf cs os ->
  parseCompletionsFromShell (JArr os) ri rl
  = inr (map (fun c => rawCompletionToTerminalCompletionItem c ri rl) cs).
Proof.
  intros Ho. pose proof (result_mapM_Forall2 _ _ _ _ asPwshCompletion_object Ho) as Hm.
  destruct Ho as [| c o cs os Hco Ho]; [reflexivity |].
  destruct Hco as (fields & -> & _).
  unfold parseCompletionsFromShell. cbn [isFalsy Array_isArray negb typeof_is_string].
  rewrite Hm. reflexivity.
Qed.

Lemma parse_tuples (cs : list PwshCompletion) (ts : list JSValue) (ri rl : number) :
  Forall2 TupleFormOf cs ts ->
  parseCompletionsFromShell (JArr ts) ri rl
  = inr (map (fun c => rawCompletionToTerminalCompletionItem c ri rl) cs).
Proof.
  intros Ht. pose proof (result_mapM_Forall2 _ _ _ _ fromCompressed_tuple Ht) as Hm.
  destruct Ht as [| c t cs ts Hct Ht]; [reflexivity |].
  destruct Hct as (elements & -> & _).
  unfold parseCompletionsFromShell. cbn [isFalsy Array_isArray negb typeof_is_string].
  rewrite Hm. reflexivity.
Qed.

Lemma parse_single_object (c : PwshCompletion) (o : JSValue) (ri rl : number) :
  ObjectFormOf c o ->
  parseCompletionsFromShell o ri rl = inr [rawCompletionToTerminalCompletionItem c ri rl].
Proof.
  intros Ho. pose proof (asPwshCompletion_object _ _ Ho) as Hc.
  destruct Ho as (fields & -> & _).
  unfold parseCompletionsFromShell. cbn [isFalsy Array_isArray negb result_mapM].
  rewrite Hc. reflexivity.
Qed.

Lemma parse_single_tuple (c : PwshCompletion) (t : JSValue) (ri rl : number) :
  TupleFormOf c t ->
  parseCompletionsFromShell t ri rl = inr [rawCompletionToTerminalCompletionItem c ri rl].
Proof.
  intros Ht. pose proof (fromCompressed_tuple _ _ Ht) as Hc.
  destruct Ht as (elements & -> & Htext & _).
  destruct elements as [| first rest]; [discriminate |].
  unfold getIndex in Htext. simpl in Htext. subst first.
  unfold parseCompletionsFromShell.
  cbn [isFalsy Array_isArray negb typeof_is_string result_mapM].
  rewrite Hc. reflexivity.
Qed.

(** C6: a batch given as an array of objects and the same batch given as
    an array of tuples decode and normalize to the same items, those of
    the logical completions in order; so do a single object and a single
    tuple. *)
Theorem wire_forms_normalize_identically
    (cs : list PwshCompletion) (os ts : list JSValue) (ri rl : number)
    (Ho : Forall2 ObjectFormOf cs os) (Ht : Forall2 TupleFormOf cs ts) :
  parseCompletionsFromShell (JArr os) ri rl = parseCompletionsFromShell (JArr ts) ri rl
  /\ parseCompletionsFromShell (JArr ts) ri rl
     = inr (map (fun c => rawCompletionToTerminalCompletionItem c ri rl) cs)
  /\ (forall o t, os = [o] -> ts = [t] ->
        parseCompletionsFromShell o ri rl = parseCompletionsFromShell t ri rl
        /\ parseCompletionsFromShell t ri rl = parseCompletionsFromShell (JArr ts) ri rl).
Proof.
  rewrite (parse_objects _ _ _ _ Ho), (parse_tuples _ _ _ _ Ht).
  repeat split.
  - subst os ts. inversion Ho as [| c o' cs' os' Hco Hrest]; subst.
    inversion Hrest; subst. inversion Ht as [| c' t' cs'' ts' Hct Hrest']; subst.
    now rewrite (parse_single_object _ _ _ _ Hco), (parse_single_tuple _ _ _ _ Hct).
  - subst os ts. inversion Ht as [| c' t' cs'' ts' Hct Hrest']; subst.
    inversion Hrest'; subst.
    now rewrite (parse_single_tuple _ _ _ _ Hct).
Qed.

End Decoder.

(** ** The request correlator *)

(** Unfolds the monad; the setters then reduce under [simpl]. *)
Ltac run_m := unfold bind, gets, modify, ret, throw, liftR, fire; simpl.

Section Correlator.

Context {ThemeIcon : Type} `{Codicons ThemeIcon} `{Host ThemeIcon}.

Implicit Types (st : Provider ThemeIcon) (p q : nat).

Lemma notify_pending st p (r : option (list (TerminalCompletionItem ThemeIcon))) :
  _completionsResolver st = Some p -> promises st !! p = Some Pending ->
  _notifyCompletions r st
  = (inr tt, set__completionsResolver None
               (set_promises (<[p := Fulfilled r]> (promises st)) st)).
Proof.
  intros Hres Hpend. unfold _notifyCompletions. run_m.
  rewrite Hres. run_m. unfold resolvePromise. now rewrite Hpend.
Qed.

Lemma notify_fulfils st p r :
  _completionsResolver st = Some p -> promises st !! p = Some Pending ->
  fst (_notifyCompletions r st) = inr tt
  /\ promises (snd (_notifyCompletions r st)) !! p = Some (Fulfilled r)
  /\ _completionsResolver (snd (_notifyCompletions r st)) = None.
Proof.
  intros Hres Hpend. rewrite (notify_pending _ _ _ Hres Hpend). simpl.
  repeat split. apply list_lookup_insert_eq. now apply lookup_lt_Some in Hpend.
Qed.

(** C9: a batch that arrives while a request is pending and the terminal
    is detached or unfocused (or the widget is disabled, or there is no
    prompt input model) fulfils the pending promise with [undefined] and
    clears the resolver. *)
Theorem unfocused_batch_resolves_undefined
    st (data : string) (args : list string) (terminal : Terminal) p
    (Hterminal : _terminal st = Some terminal)
    (Hcommand : Str.split ";" data = "Completions" :: args)
    (Hresolver : _completionsResolver st = Some p)
    (Hpending : promises st !! p = Some Pending)
    (Hcontext : element terminal = false
                \/ isAncestorOfActiveElement terminal = false
                \/ _promptInputModel st = None
                \/ _enableWidget st = false) :
  fst (_handleVSCodeSequence data st) = inr (Sync true)
  /\ promises (snd (_handleVSCodeSequence data st)) !! p = Some (Fulfilled None)
  /\ promises (snd (_handleVSCodeSequence data st)) !! p <> Some (Fulfilled (Some []))
  /\ _completionsResolver (snd (_handleVSCodeSequence data st)) = None.
Proof.
  set (st1 := set_emitted (emitted st ++ [DidReceiveCompletions]) st).
  assert (Hn : _handleCompletionsSequence terminal data "Completions" args st
               = _notifyCompletions None st1).
  { unfold _handleCompletionsSequence. run_m. fold st1.
    destruct (_promptInputModel st) as [model|] eqn:Hmodel; [| reflexivity].
    destruct (element terminal) eqn:He, (_enableWidget st) eqn:Hw; simpl; try reflexivity.
    destruct (isAncestorOfActiveElement terminal) eqn:Hf; simpl; [| reflexivity].
    destruct Hcontext as [Hc | [Hc | [Hc | Hc]]]; discriminate. }
  assert (Hres1 : _completionsResolver st1 = Some p) by exact Hresolver.
  assert (Hpend1 : promises st1 !! p = Some Pending) by exact Hpending.
  assert (Hrun : _handleVSCodeSequence data st
                 = (inr (Sync true), snd (_notifyCompletions None st1))).
  { unfold _handleVSCodeSequence. run_m. rewrite Hterminal, Hcommand. simpl.
    run_m. rewrite Hn. rewrite (notify_pending _ _ _ Hres1 Hpend1). reflexivity. }
  rewrite Hrun. simpl.
  destruct (notify_fulfils st1 p None Hres1 Hpend1) as (_ & Hp & Hr).
  rewrite Hp, Hr. repeat split. discriminate.
Qed.

(** C3, as the code has it: when the cache is empty and the stored text
    does not parse, the [SyntaxError] of [JSON.parse] leaves the
    constructor; the cache is empty and the stored text is kept. *)
Theorem unparsable_store_throws
    (providedPwshCommands : option (list (TerminalCompletionItem ThemeIcon)))
    (shellType : option TerminalShellType) (commandDetection : option PromptInput.t)
    (cache : list (TerminalCompletionItem ThemeIcon)) (config : string)
    (ps : list (PromiseState ThemeIcon))
    (Hshell : shellType = None \/ shellType = Some PowerShell)
    (Hprovided : default [] providedPwshCommands = [])
    (Hparse : JSON_parse config = None) :
  let r := constructor providedPwshCommands shellType commandDetection
             (fieldInitializers cache (Some config) ps) in
  fst r = inl SyntaxError
  /\ cachedPwshCommands (snd r) = []
  /\ storage (snd r) = Some config.
Proof.
  unfold constructor.
  destruct Hshell as [-> | ->]; run_m; rewrite Hprovided; simpl; rewrite Hparse; auto.
Qed.

End Correlator.

(** ** Inbound batches in a focused terminal *)

Lemma split_nonempty (d : ascii) (s : string) : Str.split d s <> [].
Proof.
  destruct s as [|c s]; simpl; [discriminate |].
  destruct (Ascii.eqb c d); [discriminate |].
  destruct (Str.split d s); discriminate.
Qed.

Lemma join_cons (d : ascii) (p : string) (l : list string) :
  l <> [] -> join d (p :: l) = p +:+ String d (join d l).
Proof. destruct l; [contradiction | reflexivity]. Qed.

Lemma join_split (d : ascii) (s : string) : join d (Str.split d s) = s.
Proof.
  induction s as [|c s IH]; [reflexivity |].
  cbn [Str.split]. pose proof (split_nonempty d s) as Hne.
  destruct (Ascii.eqb_spec c d) as [-> | Hcd].
  - rewrite (join_cons _ _ _ Hne), IH. reflexivity.
  - destruct (Str.split d s) as [|p ps]; [contradiction |].
    destruct ps as [|p' ps].
    + simpl in *. now rewrite IH.
    + rewrite join_cons by discriminate. rewrite join_cons in IH by discriminate.
      rewrite append_cons. now rewrite IH.
Qed.

Lemma drop_append (a b : string) (n : nat) :
  Str.drop (String.length a + n) (a +:+ b) = Str.drop n b.
Proof. induction a as [|x a IH]; str_simpl; [reflexivity | exact IH]. Qed.

Lemma drop_all (a : string) (n : nat) : Str.drop (String.length a + n) a = EmptyString.
Proof.
  induction a as [|x a IH]; simpl; [now destruct n | exact IH].
Qed.

(** The payload is what follows the fourth semicolon. *)
Lemma payload_after_four_semicolons (data command a0 a1 a2 : string) (rest : list string) :
  Str.split ";" data = command :: a0 :: a1 :: a2 :: rest ->
  payloadOf data command (a0 :: a1 :: a2 :: rest) = inr (join ";" rest).
Proof.
  intros Hs. pose proof (join_split ";" data) as Hj. rewrite Hs in Hj.
  unfold payloadOf. simpl. f_equal. rewrite <- Hj. clear.
  replace (String.length command + String.length a0 + String.length a1
           + String.length a2 + 4)%nat
    with (String.length command + (1 + (String.length a0 + (1 + (String.length a1
           + (1 + (String.length a2 + 1)))))))%nat by lia.
  destruct rest as [|r rest].
  - change (join ";" []) with EmptyString.
    rewrite !join_cons by discriminate. change (join ";" [a2]) with a2.
    do 3 (rewrite drop_append; cbn [Nat.add Str.drop]).
    apply drop_all.
  - rewrite !join_cons by discriminate.
    do 4 (rewrite drop_append; cbn [Nat.add Str.drop]).
    reflexivity.
Qed.

Section Batches.

Context {ThemeIcon : Type} `{Codicons ThemeIcon} `{Host ThemeIcon}.

Implicit Types (st : Provider ThemeIcon) (p q : nat).

Lemma parse_window (raw : JSValue) (ri rl : number)
    (items : list (TerminalCompletionItem ThemeIcon)) :
  parseCompletionsFromShell raw ri rl = inr items ->
  Forall (fun i => replacementIndex i = ri /\ replacementLength i = rl) items.
Proof.
  unfold parseCompletionsFromShell.
  assert (Hmap : forall l : list PwshCompletion,
    Forall (fun i : TerminalCompletionItem ThemeIcon =>
              replacementIndex i = ri /\ replacementLength i = rl)
           (map (fun e => rawCompletionToTerminalCompletionItem e ri rl) l)).
  { intros l. apply Forall_forall. intros i Hi. apply list_elem_of_In in Hi.
    apply in_map_iff in Hi as (e & <- & _). split; reflexivity. }
  destruct (isFalsy raw); [intros [= <-]; constructor |].
  match goal with
  | |- context [match ?t with Some _ => _ | None => _ end] => destruct t as [typed|]
  end; [| intros [= <-]; constructor].
  destruct typed as [e | l]; simpl; [discriminate |].
  intros [= <-]. apply Hmap.
Qed.

Lemma handler_focused st (terminal : Terminal) (data command : string)
    (args : list string) (model : PromptInput.t) :
  _promptInputModel st = Some model ->
  element terminal = true -> _enableWidget st = true ->
  isAncestorOfActiveElement terminal = true ->
  let r := _handleCompletionsSequence terminal data command args st in
  match rawCompletionsOf data command args with
  | inl e => fst r = inl e
  | inr raw =>
      match parseCompletionsFromShell raw (fst (windowOf st model args))
              (snd (windowOf st model args)) with
      | inl e => fst r = inl e
      | inr decoded =>
          fst r = inr tt
          /\ _mostRecentCompletion (snd r) = None
          /\ _cursorIndexDelta (snd r)
             = number_sub (Num (PromptInput.cursorIndex model))
                 (number_add (fst (windowOf st model args)) (snd (windowOf st model args)))
          /\ _completionsResolver (snd r) = None
          /\ promises (snd r)
             = match _completionsResolver st with
               | Some p => resolvePromise p (Some (completionsOf st model decoded)) (promises st)
               | None => promises st
               end
      end
  end.
Proof.
  intros Hmodel He Hw Hf r. subst r.
  unfold _handleCompletionsSequence, windowOf, completionsOf. run_m.
  rewrite Hmodel, He, Hw, Hf. simpl. run_m.
  destruct (isGlobalCommandOf (leadingLineContentOf model (_cursorIndexDelta st)));
    simpl; run_m;
    (destruct (rawCompletionsOf data command args) as [e | raw]; simpl; [reflexivity |]);
    match goal with
    | |- context [parseCompletionsFromShell raw ?a ?b] =>
        destruct (parseCompletionsFromShell raw a b) as [e | decoded]
    end; simpl; try reflexivity;
    unfold _notifyCompletions; run_m;
    match goal with
    | |- context [existsb isDirectory ?l] => destruct (existsb isDirectory l)
    end; simpl; run_m;
    destruct (_completionsResolver st) eqn:Hr; simpl; auto.
Qed.

(** C10: in a focused terminal, a contextual batch that decodes to the
    empty list while the most recent completion is a directory resolves
    the pending request with that completion alone; and whenever a batch
    is processed without an exception the most recent completion is
    cleared. *)
Theorem carry_over_on_empty_batch
    st (terminal : Terminal) (data command : string) (args : list string)
    (model : PromptInput.t) (raw : JSValue) (c : TerminalCompletionItem ThemeIcon) p
    (Hmodel : _promptInputModel st = Some model)
    (Helement : element terminal = true)
    (Hwidget : _enableWidget st = true)
    (Hfocus : isAncestorOfActiveElement terminal = true)
    (Hcontextual :
       isGlobalCommandOf (leadingLineContentOf model (_cursorIndexDelta st)) = false)
    (Hraw : rawCompletionsOf data command args = inr raw)
    (Hempty : parseCompletionsFromShell raw (parseInt (args !! 0%nat))
                (parseInt (args !! 1%nat)) = inr [])
    (Hrecent : _mostRecentCompletion st = Some c)
    (Hdirectory : isDirectory c = true)
    (Hresolver : _completionsResolver st = Some p)
    (Hpending : promises st !! p = Some Pending) :
  let r := _handleCompletionsSequence terminal data command args st in
  fst r = inr tt
  /\ promises (snd r) !! p = Some (Fulfilled (Some [c]))
  /\ _mostRecentCompletion (snd r) = None
  /\ _completionsResolver (snd r) = None
  /\ (forall st2 data2 command2 args2 model2,
        _promptInputModel st2 = Some model2 -> _enableWidget st2 = true ->
        fst (_handleCompletionsSequence terminal data2 command2 args2 st2) = inr tt ->
        _mostRecentCompletion
          (snd (_handleCompletionsSequence terminal data2 command2 args2 st2)) = None).
Proof.
  intros r. subst r.
  pose proof (handler_focused st terminal data command args model
                Hmodel Helement Hwidget Hfocus) as Hh.
  cbv zeta in Hh. unfold windowOf, completionsOf in Hh.
  rewrite Hraw, Hcontextual in Hh. simpl in Hh. rewrite Hempty in Hh.
  destruct Hh as (Hok & Hmost & _ & Hres & Hps).
  rewrite Hresolver, Hrecent in Hps. unfold carryOver, resolvePromise in Hps.
  rewrite Hdirectory, Hpending in Hps. simpl in Hps.
  repeat split; try assumption.
  - rewrite Hps. apply list_lookup_insert_eq. now apply lookup_lt_Some in Hpending.
  - intros st2 data2 command2 args2 model2 Hmodel2 Hwidget2 Hok2.
    pose proof (handler_focused st2 terminal data2 command2 args2 model2
                  Hmodel2 Helement Hwidget2 Hfocus) as Hh2.
    cbv zeta in Hh2.
    destruct (rawCompletionsOf data2 command2 args2) as [e | raw2]; [congruence |].
    match type of Hh2 with
    | match ?t with inl _ => _ | inr _ => _ end => destruct t as [e | decoded2]
    end; [congruence |].
    apply Hh2.
Qed.

(** C2, as the code has it: for a contextual batch
    [Completions;a0;a1;a2;payload] the replacement index is [parseInt(a0)]
    and the replacement length [parseInt(a1)]; [a2] only adds its length
    to the offset of the payload, which is what follows the fourth
    semicolon. *)
Theorem contextual_window_from_first_two_arguments
    st (terminal : Terminal) (data a0 a1 a2 : string) (rest : list string)
    (model : PromptInput.t) (raw : JSValue)
    (decoded : list (TerminalCompletionItem ThemeIcon)) p
    (Hterminal : _terminal st = Some terminal)
    (Hmodel : _promptInputModel st = Some model)
    (Helement : element terminal = true)
    (Hwidget : _enableWidget st = true)
    (Hfocus : isAncestorOfActiveElement terminal = true)
    (Hcontextual :
       isGlobalCommandOf (leadingLineContentOf model (_cursorIndexDelta st)) = false)
    (Hsplit : Str.split ";" data = "Completions" :: a0 :: a1 :: a2 :: rest)
    (Hraw : rawCompletionsOf data "Completions" (a0 :: a1 :: a2 :: rest) = inr raw)
    (Hdecoded : parseCompletionsFromShell raw (parseInt_string a0) (parseInt_string a1)
                = inr decoded)
    (Hresolver : _completionsResolver st = Some p)
    (Hpending : promises st !! p = Some Pending) :
  let r := _handleVSCodeSequence data st in
  fst r = inr (Sync true)
  /\ payloadOf data "Completions" (a0 :: a1 :: a2 :: rest) = inr (join ";" rest)
  /\ promises (snd r) !! p
     = Some (Fulfilled (Some (carryOver (_mostRecentCompletion st) decoded)))
  /\ Forall (fun i => replacementIndex i = parseInt_string a0
                      /\ replacementLength i = parseInt_string a1) decoded
  /\ _cursorIndexDelta (snd r)
     = number_sub (Num (PromptInput.cursorIndex model))
         (number_add (parseInt_string a0) (parseInt_string a1)).
Proof.
  intros r. subst r.
  pose proof (handler_focused st terminal data "Completions" (a0 :: a1 :: a2 :: rest) model
                Hmodel Helement Hwidget Hfocus) as Hh.
  cbv zeta in Hh. unfold windowOf, completionsOf in Hh.
  rewrite Hraw, Hcontextual in Hh. simpl in Hh. rewrite Hdecoded in Hh.
  destruct Hh as (Hok & _ & Hdelta & _ & Hps).
  rewrite Hresolver in Hps. unfold resolvePromise in Hps. rewrite Hpending in Hps.
  assert (Hrun : _handleVSCodeSequence data st
    = (inr (Sync true),
       snd (_handleCompletionsSequence terminal data "Completions"
              (a0 :: a1 :: a2 :: rest) st))).
  { unfold _handleVSCodeSequence. run_m. rewrite Hterminal, Hsplit. simpl. run_m.
    destruct (_handleCompletionsSequence terminal data "Completions"
                (a0 :: a1 :: a2 :: rest) st) as [[e | []] st'];
      simpl in *; [discriminate | reflexivity]. }
  rewrite Hrun. simpl. repeat split.
  - now apply payload_after_four_semicolons.
  - rewrite Hps. apply list_lookup_insert_eq. now apply lookup_lt_Some in Hpending.
  - now apply parse_window with (raw := raw).
  - exact Hdelta.
Qed.

End Batches.

(** ** Overlapping requests *)

Section Overlap.

Context {ThemeIcon : Type} `{Codicons ThemeIcon} `{Host ThemeIcon}.

Implicit Types (st : Provider ThemeIcon) (p q : nat).

Section Invariants.

Variable I : Provider ThemeIcon -> Prop.

Lemma preserves_ret {A} (a : A) : Preserves I (ret a).
Proof. intros st Hi. exact Hi. Qed.

Lemma preserves_throw {A} (e : exn) : Preserves I (throw (A := A) e).
Proof. intros st Hi. exact Hi. Qed.

Lemma preserves_gets {A} (f : Provider ThemeIcon -> A) : Preserves I (gets f).
Proof. intros st Hi. exact Hi. Qed.

Lemma preserves_liftR {A} (r : result A) : Preserves I (liftR r).
Proof. intros st Hi. exact Hi. Qed.

Lemma preserves_bind {A B} (c : M ThemeIcon A) (k : A -> M ThemeIcon B) :
  Preserves I c -> (forall a, Preserves I (k a)) -> Preserves I (bind c k).
Proof.
  intros Hc Hk st Hi. unfold bind. specialize (Hc st Hi).
  destruct (c st) as [[e | a] st']; simpl in *; [exact Hc | now apply Hk].
Qed.

Lemma preserves_modify (f : Provider ThemeIcon -> Provider ThemeIcon) :
  (forall st, I st -> I (f st)) -> Preserves I (modify f).
Proof. intros Hf st Hi. now apply Hf. Qed.

Lemma preserves_run (step' : Event -> Provider ThemeIcon -> Provider ThemeIcon) :
  (forall ev st, I st -> I (step' ev st)) ->
  forall evs st, I st -> I (fold_left (fun st ev => step' ev st) evs st).
Proof.
  intros Hstep evs. induction evs as [| ev evs IH]; intros st Hi; [exact Hi |].
  simpl. apply IH. now apply Hstep.
Qed.

End Invariants.

(** Follows the structure of a method; [special] is tried first, and a
    field update must keep the invariant by computation. *)
Ltac preserves special :=
  repeat first
    [ special
    | apply preserves_ret
    | apply preserves_throw
    | apply preserves_gets
    | apply preserves_liftR
    | apply preserves_modify;
      let Hi := fresh "Hi" in intros ? Hi; first [exact Hi | reflexivity]
    | apply preserves_bind; [| intros ?]
    | match goal with
      | |- Preserves _ (if ?b then _ else _) => destruct b
      | |- Preserves _ (match ?x with _ => _ end) => destruct x
      end ].

Lemma orphan_notify p r : Preserves (ThemeIcon := ThemeIcon) (Orphan p) (_notifyCompletions r).
Proof.
  intros st [Hp Hr]. unfold Orphan, _notifyCompletions. run_m.
  destruct (_completionsResolver st) as [q|] eqn:Hq; run_m;
    [| split; [exact Hp | rewrite Hq; discriminate]].
  split; [| discriminate].
  unfold resolvePromise.
  destruct (promises st !! q) as [[| v] |]; try exact Hp.
  rewrite list_lookup_insert_ne; [exact Hp | congruence].
Qed.

Lemma orphan_wait p : Preserves (ThemeIcon := ThemeIcon) (Orphan p) _waitForCompletions.
Proof.
  intros st [Hp Hr]. unfold Orphan, _waitForCompletions. run_m.
  pose proof (lookup_lt_Some _ _ _ Hp) as Hlt. split.
  - now rewrite lookup_app_l.
  - intros [= E]. lia.
Qed.

Ltac orphan := preserves ltac:(first [apply orphan_notify | apply orphan_wait]).

Lemma handleVSCode_preserves (I : Provider ThemeIcon -> Prop) data :
  (forall terminal command args,
     Preserves I (_handleCompletionsSequence terminal data command args)) ->
  (forall terminal command args,
     Preserves I (_handleCompletionsPwshCommandsSequence terminal data command args)) ->
  Preserves I (_handleVSCodeSequence data).
Proof.
  intros Hc Hp. unfold _handleVSCodeSequence.
  apply preserves_bind; [apply preserves_gets | intros [terminal |]; [| apply preserves_ret]].
  destruct (Str.split ";" data) as [| command args]; [apply preserves_ret |].
  destruct (String.eqb command "Completions").
  - apply preserves_bind; [apply Hc | intros; apply preserves_ret].
  - destruct (String.eqb command "CompletionsPwshCommands"); [| apply preserves_ret].
    intros st Hi. specialize (Hp terminal command args st Hi).
    destruct (_handleCompletionsPwshCommandsSequence terminal data command args st).
    exact Hp.
Qed.

Lemma step_keeps_orphan p ev st : Orphan p st -> Orphan p (step ev st).
Proof.
  intros Ho. destruct ev; simpl.
  - revert st Ho. unfold provideCompletions, fire. orphan.
  - destruct (oscHandler st); [| exact Ho].
    revert st Ho. apply handleVSCode_preserves; intros.
    + unfold _handleCompletionsSequence, fire. orphan.
    + unfold _handleCompletionsPwshCommandsSequence. orphan.
  - destruct (_terminal st); exact Ho.
  - destruct affectsEnabled; exact Ho.
  - unfold activate. run_m. destruct enabled; exact Ho.
  - destruct (_terminal st); exact Ho.
  - exact Ho.
Qed.

Lemma run_keeps_orphan p evs st : Orphan p st -> Orphan p (run evs st).
Proof. apply preserves_run. intros ev st'. apply step_keeps_orphan. Qed.

Lemma step_keeps_no_recent ev st : NoRecent st -> NoRecent (step ev st).
Proof.
  intros Hn. destruct ev; simpl.
  - revert st Hn. unfold provideCompletions, _waitForCompletions, fire. preserves fail.
  - destruct (oscHandler st); [| exact Hn].
    revert st Hn. apply handleVSCode_preserves; intros.
    + unfold _handleCompletionsSequence, _notifyCompletions, fire. preserves fail.
    + unfold _handleCompletionsPwshCommandsSequence. preserves fail.
  - destruct (_terminal st); exact Hn.
  - destruct affectsEnabled; exact Hn.
  - unfold activate. run_m. destruct enabled; exact Hn.
  - destruct (_terminal st); exact Hn.
  - exact Hn.
Qed.

(** No method assigns [_mostRecentCompletion] anything but [undefined]:
    it is unset after the constructor and stays so. *)
Lemma most_recent_completion_never_set
    (providedPwshCommands : option (list (TerminalCompletionItem ThemeIcon)))
    (shellType : option TerminalShellType) (commandDetection : option PromptInput.t)
    (cache : list (TerminalCompletionItem ThemeIcon)) (stored : option string)
    (ps : list (PromiseState ThemeIcon)) (evs : list Event) :
  _mostRecentCompletion
    (run evs (snd (constructor providedPwshCommands shellType commandDetection
                     (fieldInitializers cache stored ps)))) = None.
Proof.
  apply (preserves_run (NoRecent (ThemeIcon := ThemeIcon)) step step_keeps_no_recent).
  assert (Hc : Preserves (ThemeIcon := ThemeIcon) NoRecent
                 (constructor providedPwshCommands shellType commandDetection)).
  { unfold constructor, hydrate. preserves fail. }
  apply Hc. reflexivity.
Qed.

Lemma silent_ret {A} (a : A) : Silent (ThemeIcon := ThemeIcon) (ret a).
Proof. intros st. now exists a. Qed.

Lemma silent_gets {A} (f : Provider ThemeIcon -> A) : Silent (gets f).
Proof. intros st. now exists (f st). Qed.

Lemma silent_modify (f : Provider ThemeIcon -> Provider ThemeIcon) :
  (forall st, promises (f st) = promises st) -> Silent (modify f).
Proof. intros Hf st. exists tt. split; [reflexivity | apply Hf]. Qed.

Lemma silent_bind {A B} (c : M ThemeIcon A) (k : A -> M ThemeIcon B) :
  Silent c -> (forall a, Silent (k a)) -> Silent (bind c k).
Proof.
  intros Hc Hk st. unfold bind. destruct (Hc st) as (a & Ha & Hp).
  destruct (c st) as [[e | a'] st']; simpl in *; [discriminate |].
  destruct (Hk a' st') as (b & Hb & Hp'). exists b. split; [exact Hb | congruence].
Qed.

(** What holds of the continuation after a silent step holds of the whole. *)
Lemma silent_then {A B} (c : M ThemeIcon A) (k : A -> M ThemeIcon B)
    (P : result B * Provider ThemeIcon -> Prop) st :
  Silent c ->
  (forall a st', promises st' = promises st -> P (k a st')) ->
  P (bind c k st).
Proof.
  intros Hc Hk. unfold bind. destruct (Hc st) as (a & Ha & Hp).
  destruct (c st) as [[e | a'] st']; simpl in *; [discriminate |].
  now apply Hk.
Qed.

Ltac silent :=
  repeat first
    [ apply silent_ret
    | apply silent_gets
    | apply silent_modify; intros ?; reflexivity
    | apply silent_bind; [| intros ?]
    | match goal with
      | |- Silent (if ?b then _ else _) => destruct b
      end ].

Lemma provide_then_wait st value config last :
  exists st0,
    provideCompletions value config last st = _waitForCompletions st0
    /\ promises st0 = promises st.
Proof.
  unfold provideCompletions.
  do 8 (apply silent_then; [unfold fire; silent | intros ? ? <-]).
  eexists. split; reflexivity.
Qed.

Lemma wait_result st0 :
  exists st1,
    _waitForCompletions st0 = (inr (length (promises st0)), st1)
    /\ _completionsResolver st1 = Some (length (promises st0))
    /\ promises st1 = promises st0 ++ [Pending].
Proof. eexists. unfold _waitForCompletions. run_m. repeat split. Qed.

(** C1, as the code has it: a request issued while another is pending
    creates a new promise and stores its resolver in place of the old one;
    the next batch fulfils the new promise only, and the promise of the
    earlier request stays pending whatever happens afterwards. *)
Theorem second_request_replaces_resolver
    st (value : string) (config : BuiltinCompletions) (lastAccepted : Z) p0
    (Hresolver : _completionsResolver st = Some p0)
    (Hpending : promises st !! p0 = Some Pending) :
  let r := provideCompletions value config lastAccepted st in
  exists p1,
    fst r = inr p1
    /\ p1 <> p0
    /\ promises st !! p1 = None
    /\ _completionsResolver (snd r) = Some p1
    /\ promises (snd r) !! p1 = Some Pending
    /\ promises (snd r) !! p0 = Some Pending
    /\ (forall result,
          promises (snd (_notifyCompletions result (snd r))) !! p1
            = Some (Fulfilled result)
          /\ promises (snd (_notifyCompletions result (snd r))) !! p0 = Some Pending)
    /\ (forall evs, promises (run evs (snd r)) !! p0 = Some Pending).
Proof.
  intros r. subst r.
  pose proof (lookup_lt_Some _ _ _ Hpending) as Hlt.
  destruct (provide_then_wait st value config lastAccepted) as (st0 & -> & Hst0).
  destruct (wait_result st0) as (st1 & -> & Hres1 & Hps1).
  rewrite Hst0 in *. cbn [fst snd].
  assert (Hp1 : promises st1 !! length (promises st) = Some Pending).
  { rewrite Hps1. rewrite lookup_app_r by lia. now rewrite Nat.sub_diag. }
  assert (Hp0 : promises st1 !! p0 = Some Pending).
  { rewrite Hps1. now rewrite lookup_app_l. }
  assert (Horphan : Orphan p0 st1).
  { split; [exact Hp0 |]. rewrite Hres1. intros [= E]. lia. }
  exists (length (promises st)).
  split; [reflexivity |].
  split; [lia |].
  split; [apply lookup_ge_None; lia |].
  split; [exact Hres1 |].
  split; [exact Hp1 |].
  split; [exact Hp0 |].
  split.
  - intros result. split.
    + now apply notify_fulfils.
    + now apply orphan_notify.
  - intros evs. now apply run_keeps_orphan.
Qed.

End Overlap.

(** ** Closed instances *)

Example directory_suffix_witness :
  ResultType sampleFoo = 4%Z
  /\ label (rawCompletionToTerminalCompletionItem sampleFoo (Num 0) (Num 0)) = "foo/".
Proof.
  split; [reflexivity |].
  refine (proj1 (proj2 (proj2 (directory_suffix sampleFoo (Num 0) (Num 0) eq_refl))) _ _).
  - intros [He | [E | [E | [E | E]]]]; try discriminate E.
    apply matchesTrailingSeparator_spec in He. discriminate He.
  - reflexivity.
Defined.

Example executable_reclassified_as_file_witness :
  isFile (rawCompletionToTerminalCompletionItem sampleGit (Num 0) (Num 0)) = true
  /\ icon (rawCompletionToTerminalCompletionItem sampleGit (Num 0) (Num 0)) = "symbol-method".
Proof.
  assert (Hp : MatchesExecutablePattern (CompletionText sampleGit)).
  { exists "git", "exe". repeat split; simpl; try reflexivity; try lia. discriminate. }
  pose proof (executable_reclassified_as_file sampleGit (Num 0) (Num 0) eq_refl
                (or_intror Hp)) as Hw.
  cbv zeta in Hw. destruct Hw as (_ & Hfile & _ & _ & _ & Hicon).
  split; [exact Hfile | exact (Hicon eq_refl)].
Defined.

Example wire_forms_normalize_identically_witness :
  parseCompletionsFromShell
    (JArr [JObj [("CompletionText", JStr "git.exe"); ("ResultType", JNum 2)];
           JObj [("ResultType", JNum 4); ("ToolTip", JStr "a folder");
                 ("CompletionText", JStr "foo"); ("CustomIcon", JNull)]])
    (Num 3) (Num 2)
  = parseCompletionsFromShell
      (JArr [JArr [JStr "git.exe"; JNum 2];
             JArr [JStr "foo"; JNum 4; JStr "a folder"]])
      (Num 3) (Num 2).
Proof.
  refine (proj1 (wire_forms_normalize_identically [sampleGit; sampleFoo] _ _ _ _ _ _)).
  - repeat constructor; eexists; repeat split; simpl; auto.
  - repeat constructor; eexists; repeat split; simpl; auto.
Defined.

Example getIcon_selection_witness :
  getIcon 4 (Some "terminalPowershell") = "terminal-powershell"
  /\ getIcon 4 (Some "noSuchIcon") = "symbol-text"
  /\ getIcon 4 None = "folder".
Proof.
  destruct (getIcon_selection (H := sampleCodicons) 4) as (Hhas & Hnot & _ & Hnone & _).
  split; [| split].
  - apply Hhas; [discriminate | reflexivity | reflexivity].
  - apply Hnot; [discriminate | reflexivity].
  - exact Hnone.
Defined.

Example unfocused_batch_resolves_undefined_witness :
  promises (snd (_handleVSCodeSequence "Completions;3;2;5;[]" sampleUnfocused)) !! 0%nat
  = Some (Fulfilled None).
Proof.
  refine (proj1 (proj2 (unfocused_batch_resolves_undefined sampleUnfocused
            "Completions;3;2;5;[]" ["3"; "2"; "5"; "[]"] sampleBlurred 0
            eq_refl eq_refl eq_refl eq_refl (or_intror (or_introl eq_refl))))).
Defined.

Example unparsable_store_throws_witness :
  fst (constructor None (Some PowerShell) None
         (fieldInitializers [] (Some sampleGarbage) [])) = inl SyntaxError.
Proof.
  refine (proj1 (unparsable_store_throws None (Some PowerShell) None [] sampleGarbage []
                   (or_intror eq_refl) eq_refl eq_refl)).
Defined.

Example carry_over_on_empty_batch_witness :
  promises (snd (_handleCompletionsSequence sampleTerminal "Completions;3;2;5;[]"
                   "Completions" ["3"; "2"; "5"; "[]"] sampleWithRecent)) !! 0%nat
  = Some (Fulfilled (Some [sampleDirectory])).
Proof.
  refine (proj1 (proj2 (carry_over_on_empty_batch sampleWithRecent sampleTerminal
            "Completions;3;2;5;[]" "Completions" ["3"; "2"; "5"; "[]"] samplePrompt
            (JArr []) sampleDirectory 0
            eq_refl eq_refl eq_refl eq_refl eq_refl eq_refl eq_refl eq_refl eq_refl
            eq_refl eq_refl))).
Defined.

Example contextual_window_from_first_two_arguments_witness :
  promises (snd (_handleVSCodeSequence ("Completions;3;2;5;" +:+ samplePayload)
                   sampleAwaiting)) !! 0%nat
  = Some (Fulfilled (Some [sampleDirectory])).
Proof.
  refine (proj1 (proj2 (proj2 (contextual_window_from_first_two_arguments sampleAwaiting
            sampleTerminal ("Completions;3;2;5;" +:+ samplePayload) "3" "2" "5"
            [samplePayload] samplePrompt (JArr [JArr [JStr "src"; JNum 4]])
            [sampleDirectory] 0
            eq_refl eq_refl eq_refl eq_refl eq_refl eq_refl eq_refl eq_refl eq_refl
            eq_refl eq_refl)))).
Defined.

Example second_request_replaces_resolver_witness :
  exists p1,
    fst (provideCompletions EmptyString sampleConfig 0 sampleAwaiting) = inr p1
    /\ p1 <> 0%nat.
Proof.
  destruct (second_request_replaces_resolver sampleAwaiting EmptyString sampleConfig 0 0
              eq_refl eq_refl) as (p1 & Hfst & Hne & _).
  exists p1. split; [exact Hfst | exact Hne].
Defined.

(** ** Where the code departs from the specification *)

(** C1: two overlapping requests get two promises; the resolver of the
    second replaces the first, the batch fulfils the second, and the first
    promise is still pending. *)
Example second_request_overwrites_resolver :
  _completionsResolver sampleAwaiting = Some 0%nat
  /\ _completionsResolver (step (Request EmptyString sampleConfig 0) sampleAwaiting)
     = Some 1%nat
  /\ promises (step (Request EmptyString sampleConfig 0) sampleAwaiting)
     = [Pending; Pending]
  /\ promises (step (Osc "Completions;3;2;5;[]")
                 (step (Request EmptyString sampleConfig 0) sampleAwaiting))
     = [Pending; Fulfilled (Some [])]
  /\ _completionsResolver (step (Osc "Completions;3;2;5;[]")
                             (step (Request EmptyString sampleConfig 0) sampleAwaiting))
     = None.
Proof. vm_compute. repeat split. Qed.

(** C2: in [Completions;3;2;5;payload] the item gets index 3 and length 2,
    the first and second arguments, not the second and third. *)
Example window_is_first_and_second_argument :
  promises (step (Osc ("Completions;3;2;5;" +:+ samplePayload)) sampleAwaiting)
  = [Fulfilled (Some [sampleDirectory])]
  /\ replacementIndex sampleDirectory = parseInt_string "3"
  /\ replacementLength sampleDirectory = parseInt_string "2"
  /\ ~ (replacementIndex sampleDirectory = parseInt_string "2"
        /\ replacementLength sampleDirectory = parseInt_string "5").
Proof.
  vm_compute. repeat split. intros [E _]. discriminate E.
Qed.

(** C3: with an unparsable stored text the constructor throws. *)
Example unparsable_store_fails_construction :
  JSON_parse sampleGarbage = None
  /\ fst (constructor None None None (fieldInitializers [] (Some sampleGarbage) []))
     = inl SyntaxError
  /\ fst (constructor None None None (fieldInitializers [] (Some sampleGarbage) []))
     <> inr tt.
Proof. vm_compute. repeat split. discriminate. Qed.

(** C4: result kind 13 has the keyword icon and [isKeyword = false]. *)
Example kind_13_is_not_flagged_keyword :
  isKeyword (rawCompletionToTerminalCompletionItem sampleDynamicKeyword (Num 0) (Num 0))
  = false
  /\ icon (rawCompletionToTerminalCompletionItem sampleDynamicKeyword (Num 0) (Num 0))
     = symbolKeyword.
Proof. vm_compute. split; reflexivity. Qed.

(** C5: an unknown custom icon id on a directory gives the generic symbol
    icon, not the folder icon of the kind table. *)
Example unknown_custom_icon_skips_kind_table :
  Codicon_has "noSuchIcon" = false
  /\ getIcon 4 (Some "noSuchIcon") = symbolText
  /\ pwshTypeToIconMap 4 = Some folder
  /\ getIcon 4 (Some "noSuchIcon") <> folder.
Proof. vm_compute. repeat split. discriminate. Qed.

(** * Further properties *)

(** ** More on the normalizer *)

Section NormalizerMore.

Context {ThemeIcon : Type} `{Codicons ThemeIcon}.

(** X1: at most one of [isFile], [isDirectory], [isKeyword] is set, for
    every raw completion. *)
Theorem flags_exclusive (raw : PwshCompletion) (ri rl : number) :
  isFile (rawCompletionToTerminalCompletionItem raw ri rl)
    && isDirectory (rawCompletionToTerminalCompletionItem raw ri rl) = false
  /\ isFile (rawCompletionToTerminalCompletionItem raw ri rl)
       && isKeyword (rawCompletionToTerminalCompletionItem raw ri rl) = false
  /\ isDirectory (rawCompletionToTerminalCompletionItem raw ri rl)
       && isKeyword (rawCompletionToTerminalCompletionItem raw ri rl) = false.
Proof.
  destruct (flags_from_reclassified_kind raw ri rl) as (Hf & Hd & Hk).
  cbv zeta in *. rewrite Hf, Hd, Hk.
  generalize (ResultType (snd (rawCompletionToTerminalCompletionItem' raw ri rl))).
  intros k. repeat split.
  - destruct (Z.eqb_spec k 3) as [-> |]; reflexivity.
  - destruct (Z.eqb_spec k 3) as [-> |]; reflexivity.
  - destruct (Z.eqb_spec k 4) as [-> |]; reflexivity.
Qed.

(** X2: [isFile] is set exactly for kind 3 and for kind 2 with a text
    that ends in a dot and two to four letters or digits (so a kind-2
    completion without such an extension is not a file); [isDirectory] is
    set exactly for kind 4. *)
Theorem file_and_directory_flags (raw : PwshCompletion) (ri rl : number) :
  (isFile (rawCompletionToTerminalCompletionItem raw ri rl) = true
   <-> ResultType raw = 3%Z
       \/ (ResultType raw = 2%Z /\ EndsInExtension (CompletionText raw)))
  /\ (isDirectory (rawCompletionToTerminalCompletionItem raw ri rl) = true
      <-> ResultType raw = 4%Z).
Proof.
  destruct (flags_from_reclassified_kind raw ri rl) as (Hf & Hd & _).
  cbv zeta in *. rewrite Hf, Hd, !Z.eqb_eq, reclassified_kind.
  destruct (Z.eqb_spec (ResultType raw) 2) as [E2 | N2]; simpl.
  - destruct (matchesExtension (CompletionText raw)) eqn:Hm.
    + apply matchesExtension_elim in Hm. split; split; intros; try lia; auto.
    + assert (Hn : ~ EndsInExtension (CompletionText raw)).
      { intros Hx. apply matchesExtension_intro in Hx. congruence. }
      split; split; intros; try lia; intuition lia.
  - split; split; intros; auto; intuition lia.
Qed.

(** X3: only a directory gets its label changed: for every other kind
    the label is the completion text, and the detail is the tooltip when
    there is one (even an empty one) and the completion text otherwise. *)
Theorem label_kept_unless_directory (raw : PwshCompletion) (ri rl : number)
    (Hkind : ResultType raw <> 4%Z) :
  label (rawCompletionToTerminalCompletionItem raw ri rl) = CompletionText raw
  /\ detail (rawCompletionToTerminalCompletionItem raw ri rl)
     = match ToolTip raw with
       | Some tip => tip
       | None => CompletionText raw
       end.
Proof.
  unfold rawCompletionToTerminalCompletionItem, rawCompletionToTerminalCompletionItem'.
  simpl. apply Z.eqb_neq in Hkind. rewrite Hkind. simpl.
  split; [reflexivity |]. destruct (ToolTip raw); reflexivity.
Qed.

(** X4: on a host whose separator is [/] or [\], the label of every
    directory item ends in a separator, unless the completion text is one
    of ".", "..", "-", "+"; and without a tooltip the detail is that final
    label. *)
Theorem directory_label_ends_in_separator (raw : PwshCompletion) (ri rl : number)
    (Hkind : ResultType raw = 4%Z)
    (Hsep : sep = "/" \/ sep = "\") :
  (EndsInSeparator (label (rawCompletionToTerminalCompletionItem raw ri rl))
   \/ In (CompletionText raw) ["."; ".."; "-"; "+"])
  /\ (ToolTip raw = None ->
      detail (rawCompletionToTerminalCompletionItem raw ri rl)
      = label (rawCompletionToTerminalCompletionItem raw ri rl)).
Proof.
  unfold rawCompletionToTerminalCompletionItem, rawCompletionToTerminalCompletionItem'.
  simpl. rewrite Hkind. simpl. split.
  - pose proof (matchesDashOrPlus_spec (CompletionText raw)) as Hd.
    pose proof (matchesDotOrDotDot_spec (CompletionText raw)) as Hp.
    destruct (matchesDashOrPlus (CompletionText raw)); simpl;
      [right; destruct (proj1 Hd eq_refl) as [-> | ->]; simpl; auto |].
    destruct (matchesDotOrDotDot (CompletionText raw)); simpl;
      [right; destruct (proj1 Hp eq_refl) as [-> | ->]; simpl; auto |].
    left. apply matchesTrailingSeparator_spec.
    destruct (matchesTrailingSeparator (CompletionText raw)) eqn:Ht; simpl; [exact Ht |].
    destruct (matchSep (CompletionText raw)) as [t|] eqn:Hm; simpl.
    + now apply matchSep_is_separator.
    + unfold matchesTrailingSeparator. destruct Hsep as [-> | ->]; now rewrite last_snoc.
  - intros ->. reflexivity.
Qed.

End NormalizerMore.

(** ** More on the decoder *)

Lemma result_mapM_length {A B} (f : A -> result B) (l : list A) (bs : list B) :
  result_mapM f l = inr bs -> length bs = length l.
Proof.
  revert bs. induction l as [| a l IH]; simpl; intros bs.
  - intros [= <-]. reflexivity.
  - destruct (f a) as [e | b]; simpl; [discriminate |].
    destruct (result_mapM f l) as [e | bs']; simpl; [discriminate |].
    intros [= <-]. simpl. now rewrite (IH bs').
Qed.

Section DecoderMore.

Context {ThemeIcon : Type} `{Codicons ThemeIcon}.

(** X5: a falsy payload ([undefined], [null], [false], [0], the empty
    string) and the empty array decode to the empty list, without error. *)
Theorem nothing_decodes_to_nothing (raw : JSValue) (ri rl : number)
    (Hraw : isFalsy raw = true \/ raw = JArr []) :
  parseCompletionsFromShell (H := H) raw ri rl = inr [].
Proof.
  unfold parseCompletionsFromShell.
  destruct Hraw as [-> | ->]; reflexivity.
Qed.

(** X6: an array whose first element is a string is read as one tuple:
    when it decodes, it gives exactly one item, whatever follows the
    first four components. *)
Theorem leading_string_means_one_tuple
    (text : string) (rest : list JSValue) (ri rl : number)
    (items : list (TerminalCompletionItem ThemeIcon))
    (Hdecoded : parseCompletionsFromShell (JArr (JStr text :: rest)) ri rl = inr items) :
  exists kind tip ico,
    getIndex 0 rest = JNum kind
    /\ encodesOptional (getIndex 1 rest) tip
    /\ encodesOptional (getIndex 2 rest) ico
    /\ items = [rawCompletionToTerminalCompletionItem
                  {| CompletionText := text; ResultType := kind;
                     ToolTip := tip; CustomIcon := ico |} ri rl].
Proof.
  unfold parseCompletionsFromShell in Hdecoded.
  cbn [isFalsy Array_isArray negb typeof_is_string result_mapM fromCompressed] in Hdecoded.
  unfold mkPwshCompletion, getIndex in *. cbn [nth asString result_bind] in Hdecoded.
  destruct (nth 0 rest JUndefined) as [| | | kind | | |]; try discriminate Hdecoded.
  cbn [asNumber result_bind] in Hdecoded.
  assert (Hopt : forall v, (exists o, asOptionalString v = inr o /\ encodesOptional v o)
                           \/ (exists e, asOptionalString v = inl e)).
  { intros [| | b | z | s | l | f]; simpl;
      first [ left; eexists; split; [reflexivity | simpl; auto; fail]
            | right; eexists; reflexivity ]. }
  destruct (Hopt (nth 1 rest JUndefined)) as [(tip & Htip & Etip) | (e & Htip)];
    rewrite Htip in Hdecoded; [| discriminate Hdecoded].
  destruct (Hopt (nth 2 rest JUndefined)) as [(ico & Hico & Eico) | (e & Hico)];
    rewrite Hico in Hdecoded; [| discriminate Hdecoded].
  simpl in Hdecoded. injection Hdecoded as <-.
  exists kind, tip, ico. repeat split; assumption.
Qed.

(** X7: an array whose first element is not a string decodes element by
    element: when it decodes, there are as many items as elements. *)
Theorem one_item_per_element
    (elements : list JSValue) (ri rl : number)
    (items : list (TerminalCompletionItem ThemeIcon))
    (Hfirst : forall first, elements !! 0%nat = Some first -> typeof_is_string first = false)
    (Hdecoded : parseCompletionsFromShell (JArr elements) ri rl = inr items) :
  length items = length elements.
Proof.
  unfold parseCompletionsFromShell in Hdecoded.
  cbn [isFalsy Array_isArray negb] in Hdecoded.
  destruct elements as [| first rest]; [now injection Hdecoded as <- |].
  rewrite (Hfirst first eq_refl) in Hdecoded.
  destruct (Array_isArray first).
  all: match type of Hdecoded with
       | context [result_mapM ?f ?l] =>
           destruct (result_mapM f l) as [e | typed] eqn:Hm; [discriminate Hdecoded |]
       end.
  all: simpl in Hdecoded; injection Hdecoded as <-.
  all: rewrite length_map; now apply result_mapM_length in Hm.
Qed.

End DecoderMore.

(** Follows the structure of a method to show that it keeps an
    invariant; [special] is tried first at every step. *)
Ltac preserving special :=
  repeat first
    [ special
    | apply preserves_ret
    | apply preserves_throw
    | apply preserves_gets
    | apply preserves_liftR
    | apply preserves_modify;
      let Hi := fresh "Hi" in intros ? Hi; first [exact Hi | reflexivity]
    | apply preserves_bind; [| intros ?]
    | match goal with
      | |- Preserves _ (if ?b then _ else _) => destruct b
      | |- Preserves _ (match ?x with _ => _ end) => destruct x
      end ].

(** ** Sequences other than completion batches *)

(** The payload of a global-commands message is what follows the second
    semicolon. *)
Lemma payload_after_two_semicolons (data command type : string) (rest : list string) :
  Str.split ";" data = command :: type :: rest ->
  Str.drop (String.length command + String.length type + 2) data = join ";" rest.
Proof.
  intros Hs. pose proof (join_split ";" data) as Hj. rewrite Hs in Hj.
  rewrite <- Hj. clear.
  replace (String.length command + String.length type + 2)%nat
    with (String.length command + (1 + (String.length type + 1)))%nat by lia.
  destruct rest as [|r rest].
  - change (join ";" []) with EmptyString.
    rewrite join_cons by discriminate. change (join ";" [type]) with type.
    rewrite drop_append; cbn [Nat.add Str.drop]. apply drop_all.
  - rewrite !join_cons by discriminate.
    do 2 (rewrite drop_append; cbn [Nat.add Str.drop]). reflexivity.
Qed.

Section Sequences.

Context {ThemeIcon : Type} `{Codicons ThemeIcon} `{Host ThemeIcon}.

Implicit Types (st : Provider ThemeIcon).

(** X8: before [activate], and for every command token other than
    [Completions] and [CompletionsPwshCommands], the sequence is reported
    as not handled and nothing changes. *)
Theorem unrecognized_sequence_unhandled st (data : string)
    (Hother : _terminal st = None
              \/ exists command args,
                   Str.split ";" data = command :: args
                   /\ command <> "Completions"
                   /\ command <> "CompletionsPwshCommands") :
  _handleVSCodeSequence data st = (inr (Sync false), st).
Proof.
  unfold _handleVSCodeSequence. run_m.
  destruct (_terminal st) as [terminal |] eqn:Ht; [| reflexivity].
  destruct Hother as [Hnone | (command & args & Hs & Hc & Hp)]; [discriminate |].
  rewrite Hs. apply String.eqb_neq in Hc, Hp. now rewrite Hc, Hp.
Qed.

Lemma commands_body st (terminal : Terminal) (data command type : string)
    (rest : list string) :
  Str.split ";" data = command :: type :: rest ->
  _handleCompletionsPwshCommandsSequence terminal data command (type :: rest) st
  = match JSON_parse (join ";" rest) with
    | None => (inl SyntaxError, st)
    | Some raw =>
        match parseCompletionsFromShell raw (Num 0) (Num 0) with
        | inl e => (inl e, st)
        | inr items =>
            (inr true,
             set_storage (Some (JSON_stringify items)) (set_cachedPwshCommands items st))
        end
    end.
Proof.
  intros Hs. unfold _handleCompletionsPwshCommandsSequence. run_m.
  rewrite (payload_after_two_semicolons _ _ _ _ Hs).
  destruct (JSON_parse (join ";" rest)) as [raw |]; [| reflexivity].
  destruct (parseCompletionsFromShell raw (Num 0) (Num 0)) as [e | items]; reflexivity.
Qed.

Lemma commands_dispatch st (terminal : Terminal) (data : string) (args : list string) :
  _terminal st = Some terminal ->
  Str.split ";" data = "CompletionsPwshCommands" :: args ->
  _handleVSCodeSequence data st
  = (inr (Async (fst (_handleCompletionsPwshCommandsSequence terminal data
                        "CompletionsPwshCommands" args st))),
     snd (_handleCompletionsPwshCommandsSequence terminal data
            "CompletionsPwshCommands" args st)).
Proof.
  intros Ht Hs. unfold _handleVSCodeSequence. run_m. rewrite Ht, Hs. simpl.
  now destruct (_handleCompletionsPwshCommandsSequence terminal data
                  "CompletionsPwshCommands" args st).
Qed.

(** X9: a global-commands message whose payload parses and decodes
    replaces the whole cache by the decoded items and stores their
    serialization; its promise is fulfilled with [true], and no request is
    settled. *)
Theorem global_commands_replace_cache
    st (terminal : Terminal) (data type : string) (rest : list string)
    (raw : JSValue) (items : list (TerminalCompletionItem ThemeIcon))
    (Hterminal : _terminal st = Some terminal)
    (Hsplit : Str.split ";" data = "CompletionsPwshCommands" :: type :: rest)
    (Hparse : JSON_parse (join ";" rest) = Some raw)
    (Hdecoded : parseCompletionsFromShell raw (Num 0) (Num 0) = inr items) :
  fst (_handleVSCodeSequence data st) = inr (Async (inr true))
  /\ cachedPwshCommands (snd (_handleVSCodeSequence data st)) = items
  /\ storage (snd (_handleVSCodeSequence data st)) = Some (JSON_stringify items)
  /\ promises (snd (_handleVSCodeSequence data st)) = promises st
  /\ _completionsResolver (snd (_handleVSCodeSequence data st)) = _completionsResolver st.
Proof.
  rewrite (commands_dispatch _ _ _ _ Hterminal Hsplit).
  rewrite (commands_body _ _ _ _ _ _ Hsplit), Hparse, Hdecoded. simpl.
  repeat split.
Qed.


(** X11: [clearSuggestCache] empties the cache and removes the stored
    value, and a provider constructed afterwards (for PowerShell or no
    shell type, without provided commands) starts with an empty cache. *)
Theorem cleared_cache_is_not_restored
    st (shellType : option TerminalShellType) (commandDetection : option PromptInput.t)
    (ps : list (PromiseState ThemeIcon))
    (Hshell : shellType = None \/ shellType = Some PowerShell) :
  cachedPwshCommands (snd (clearSuggestCache st)) = []
  /\ storage (snd (clearSuggestCache st)) = None
  /\ fst (constructor None shellType commandDetection
            (fieldInitializers (cachedPwshCommands (snd (clearSuggestCache st)))
               (storage (snd (clearSuggestCache st))) ps)) = inr tt
  /\ cachedPwshCommands
       (constructed None shellType commandDetection
          (cachedPwshCommands (snd (clearSuggestCache st)))
          (storage (snd (clearSuggestCache st))) ps) = [].
Proof.
  unfold constructed, constructor, clearSuggestCache.
  destruct Hshell as [-> | ->]; run_m; repeat split.
Qed.

(** X12: when commands are provided, they become the cache and the
    storage is not read, whatever it holds. *)
Theorem provided_commands_skip_storage
    (first : TerminalCompletionItem ThemeIcon) (others cache : list (TerminalCompletionItem ThemeIcon))
    (shellType : option TerminalShellType) (commandDetection : option PromptInput.t)
    (stored : option string) (ps : list (PromiseState ThemeIcon))
    (Hshell : shellType = None \/ shellType = Some PowerShell) :
  fst (constructor (Some (first :: others)) shellType commandDetection
         (fieldInitializers cache stored ps)) = inr tt
  /\ cachedPwshCommands
       (constructed (Some (first :: others)) shellType commandDetection cache stored ps)
     = first :: others
  /\ storage (constructed (Some (first :: others)) shellType commandDetection cache stored ps)
     = stored.
Proof.
  unfold constructed, constructor.
  destruct Hshell as [-> | ->]; run_m; repeat split.
Qed.

Lemma read_stored (vs : list JSValue) (items : list (TerminalCompletionItem ThemeIcon)) :
  Forall2 (fun v i => asCompletionItem v = Some i) vs items ->
  result_mapM (fun c => match asCompletionItem c with
                        | Some i => inr i
                        | None => inl OutsideDeclaredType
                        end) vs = inr items.
Proof.
  induction 1 as [| v i vs items Hv _ IH]; simpl; [reflexivity |].
  now rewrite Hv, IH.
Qed.

(** X13: when no commands are provided and the stored text parses to a
    list whose elements read as completion items, the constructor
    succeeds and the cache holds those items, in order (whatever the
    static cache held before). *)
Theorem stored_commands_are_loaded
    (shellType : option TerminalShellType) (commandDetection : option PromptInput.t)
    (cache : list (TerminalCompletionItem ThemeIcon)) (config : string)
    (ps : list (PromiseState ThemeIcon)) (vs : list JSValue)
    (items : list (TerminalCompletionItem ThemeIcon))
    (Hshell : shellType = None \/ shellType = Some PowerShell)
    (Hparse : JSON_parse config = Some (JArr vs))
    (Hread : Forall2 (fun v i => asCompletionItem v = Some i) vs items) :
  fst (constructor None shellType commandDetection
         (fieldInitializers cache (Some config) ps)) = inr tt
  /\ cachedPwshCommands (constructed None shellType commandDetection cache (Some config) ps)
     = items
  /\ storage (constructed None shellType commandDetection cache (Some config) ps)
     = Some config.
Proof.
  unfold constructed, constructor, hydrate.
  destruct Hshell as [-> | ->]; run_m; rewrite Hparse; run_m;
    rewrite (read_stored _ _ Hread); simpl; repeat split.
Qed.

(** X14: a stored text that parses to something that cannot be iterated
    ([null], a boolean, a number, an object) makes the constructor throw
    [TypeError]; the cache stays empty. *)
Theorem stored_non_list_throws
    (shellType : option TerminalShellType) (commandDetection : option PromptInput.t)
    (cache : list (TerminalCompletionItem ThemeIcon)) (config : string)
    (ps : list (PromiseState ThemeIcon)) (v : JSValue)
    (Hshell : shellType = None \/ shellType = Some PowerShell)
    (Hparse : JSON_parse config = Some v)
    (Hvalue : v = JNull \/ (exists b, v = JBool b) \/ (exists z, v = JNum z)
              \/ (exists fields, v = JObj fields)) :
  fst (constructor None shellType commandDetection
         (fieldInitializers cache (Some config) ps)) = inl TypeError
  /\ cachedPwshCommands (constructed None shellType commandDetection cache (Some config) ps)
     = [].
Proof.
  unfold constructed, constructor, hydrate.
  destruct Hvalue as [-> | [(b & ->) | [(z & ->) | (fields & ->)]]];
    destruct Hshell as [-> | ->]; run_m; rewrite Hparse; run_m; split; reflexivity.
Qed.

(** X15: what a global-commands message stores is what the next
    constructor loads, on a host where the serialization of the items
    parses back to a list that reads as those items. *)
Theorem persisted_commands_are_restored
    st (terminal : Terminal) (data type : string) (rest : list string)
    (raw : JSValue) (items : list (TerminalCompletionItem ThemeIcon)) (vs : list JSValue)
    (shellType : option TerminalShellType) (commandDetection : option PromptInput.t)
    (ps : list (PromiseState ThemeIcon))
    (Hterminal : _terminal st = Some terminal)
    (Hsplit : Str.split ";" data = "CompletionsPwshCommands" :: type :: rest)
    (Hparse : JSON_parse (join ";" rest) = Some raw)
    (Hdecoded : parseCompletionsFromShell raw (Num 0) (Num 0) = inr items)
    (Hround : JSON_parse (JSON_stringify items) = Some (JArr vs))
    (Hread : Forall2 (fun v i => asCompletionItem v = Some i) vs items)
    (Hshell : shellType = None \/ shellType = Some PowerShell) :
  cachedPwshCommands
    (constructed None shellType commandDetection
       (cachedPwshCommands (snd (_handleVSCodeSequence data st)))
       (storage (snd (_handleVSCodeSequence data st))) ps)
  = items.
Proof.
  rewrite (commands_dispatch _ _ _ _ Hterminal Hsplit).
  rewrite (commands_body _ _ _ _ _ _ Hsplit), Hparse, Hdecoded. simpl.
  unfold constructed, constructor, hydrate.
  destruct Hshell as [-> | ->]; run_m; rewrite Hround; run_m;
    now rewrite (read_stored _ _ Hread).
Qed.

End Sequences.

(** ** What a request emits *)

Lemma occurrences_app (seq : string) (l1 l2 : list Emitted) :
  occurrences seq (l1 ++ l2) = (occurrences seq l1 + occurrences seq l2)%nat.
Proof.
  induction l1 as [| e l1 IH]; [reflexivity |].
  destruct e; simpl; rewrite IH; lia.
Qed.

Lemma occurrences_one (seq s : string) :
  occurrences seq [AcceptedCompletion s] = if String.eqb s seq then 1%nat else 0%nat.
Proof. simpl. destruct (String.eqb s seq); reflexivity. Qed.

Section Requests.

Context {ThemeIcon : Type} `{Codicons ThemeIcon} `{Host ThemeIcon}.

Implicit Types (st : Provider ThemeIcon).

Lemma provide_effects st (value : string) (config : BuiltinCompletions) (last : Z) :
  let st' := snd (provideCompletions value config last st) in
  emitted st' = emitted st ++ requestSignals st config last
  /\ _codeCompletionsRequested st' = _codeCompletionsRequested st || pwshCode config
  /\ _gitCompletionsRequested st' = _gitCompletionsRequested st || pwshGit config
  /\ cachedPwshCommands st' = cachedPwshCommands st
  /\ storage st' = storage st
  /\ _lastUserDataTimestamp st' = _lastUserDataTimestamp st
  /\ _mostRecentCompletion st' = _mostRecentCompletion st.
Proof.
  unfold provideCompletions, _waitForCompletions, requestSignals. run_m.
  destruct (_codeCompletionsRequested st) eqn:Ec, (pwshCode config); simpl; run_m;
    destruct (_gitCompletionsRequested st) eqn:Eg, (pwshGit config); simpl; run_m;
    destruct (length (cachedPwshCommands st) =? 0)%nat; simpl; run_m;
    destruct (last <? _lastUserDataTimestamp st)%Z; simpl; run_m;
    rewrite <- ?app_assoc; simpl; rewrite ?app_nil_r;
    repeat split; rewrite ?Ec, ?Eg; reflexivity.
Qed.


(** X17: a request asks the shell for the global commands exactly when
    the cache is empty: once per such request, never when the cache holds
    something. *)
Theorem global_request_iff_cache_empty
    st (value : string) (config : BuiltinCompletions) (last : Z)
    (Hdistinct : DistinctSequences) :
  exists signals,
    emitted (snd (provideCompletions value config last st)) = emitted st ++ signals
    /\ occurrences requestGlobalCompletionsSequence signals
       = match cachedPwshCommands st with
         | [] => 1%nat
         | _ :: _ => 0%nat
         end.
Proof.
  destruct Hdistinct as (_ & Hcf & _ & Hgf & _ & Hfr).
  apply String.eqb_neq in Hcf, Hgf. apply not_eq_sym, String.eqb_neq in Hfr.
  exists (requestSignals st config last).
  split; [apply (provide_effects st value config last) |].
  unfold requestSignals. rewrite !occurrences_app.
  destruct (cachedPwshCommands st) as [| c cs]; simpl length; cbn [Nat.eqb];
    destruct (negb (_codeCompletionsRequested st) && pwshCode config),
      (negb (_gitCompletionsRequested st) && pwshGit config),
      (last <? _lastUserDataTimestamp st)%Z; simpl;
    rewrite ?Hcf, ?Hgf, ?Hfr, ?String.eqb_refl; reflexivity.
Qed.

Lemma sent_once_received (requested : bool) (seq : string) (l : list Emitted) :
  SentAtMostOnce requested seq l ->
  SentAtMostOnce requested seq (l ++ [DidReceiveCompletions]).
Proof.
  unfold SentAtMostOnce. rewrite occurrences_app. simpl. rewrite Nat.add_0_r. auto.
Qed.

Lemma code_once_fire_received :
  Preserves (ThemeIcon := ThemeIcon)
    (fun st => SentAtMostOnce (_codeCompletionsRequested st)
                 requestEnableCodeCompletionsSequence (emitted st))
    (fire DidReceiveCompletions).
Proof. intros st Hi. now apply sent_once_received. Qed.

Lemma git_once_fire_received :
  Preserves (ThemeIcon := ThemeIcon)
    (fun st => SentAtMostOnce (_gitCompletionsRequested st)
                 requestEnableGitCompletionsSequence (emitted st))
    (fire DidReceiveCompletions).
Proof. intros st Hi. now apply sent_once_received. Qed.

Lemma step_code_once (Hdistinct : DistinctSequences) ev st :
  SentAtMostOnce (_codeCompletionsRequested st)
    requestEnableCodeCompletionsSequence (emitted st) ->
  SentAtMostOnce (_codeCompletionsRequested (step ev st))
    requestEnableCodeCompletionsSequence (emitted (step ev st)).
Proof.
  destruct Hdistinct as (Hcg & Hcf & Hcr & _).
  apply not_eq_sym, String.eqb_neq in Hcg, Hcf, Hcr.
  intros Hi. destruct ev; simpl.
  - destruct (provide_effects st value config lastAcceptedCompletionTimestamp)
      as (He & Hc & _).
    cbv zeta in He, Hc. rewrite He, Hc. destruct Hi as [Hle Hzero].
    unfold SentAtMostOnce, requestSignals. rewrite !occurrences_app.
    destruct (_codeCompletionsRequested st), (pwshCode config),
      (negb (_gitCompletionsRequested st) && pwshGit config),
      (length (cachedPwshCommands st) =? 0)%nat,
      (lastAcceptedCompletionTimestamp <? _lastUserDataTimestamp st)%Z; simpl;
      rewrite ?Hcg, ?Hcf, ?Hcr, ?String.eqb_refl; simpl;
      try specialize (Hzero eq_refl); split; intros; try discriminate; lia.
  - destruct (oscHandler st); [| exact Hi].
    revert st Hi.
    apply (handleVSCode_preserves
             (fun s => SentAtMostOnce (_codeCompletionsRequested s) requestEnableCodeCompletionsSequence (emitted s)));
      intros.
    + unfold _handleCompletionsSequence, _notifyCompletions.
      preserving ltac:(apply code_once_fire_received).
    + unfold _handleCompletionsPwshCommandsSequence. preserving fail.
  - destruct (_terminal st); exact Hi.
  - destruct affectsEnabled; exact Hi.
  - unfold activate. run_m. destruct enabled; exact Hi.
  - destruct (_terminal st); exact Hi.
  - exact Hi.
Qed.

Lemma step_git_once (Hdistinct : DistinctSequences) ev st :
  SentAtMostOnce (_gitCompletionsRequested st)
    requestEnableGitCompletionsSequence (emitted st) ->
  SentAtMostOnce (_gitCompletionsRequested (step ev st))
    requestEnableGitCompletionsSequence (emitted (step ev st)).
Proof.
  destruct Hdistinct as (Hcg & _ & _ & Hgf & Hgr & _).
  apply String.eqb_neq in Hcg. apply not_eq_sym, String.eqb_neq in Hgf, Hgr.
  intros Hi. destruct ev; simpl.
  - destruct (provide_effects st value config lastAcceptedCompletionTimestamp)
      as (He & _ & Hg & _).
    cbv zeta in He, Hg. rewrite He, Hg. destruct Hi as [Hle Hzero].
    unfold SentAtMostOnce, requestSignals. rewrite !occurrences_app.
    destruct (_gitCompletionsRequested st), (pwshGit config),
      (negb (_codeCompletionsRequested st) && pwshCode config),
      (length (cachedPwshCommands st) =? 0)%nat,
      (lastAcceptedCompletionTimestamp <? _lastUserDataTimestamp st)%Z; simpl;
      rewrite ?Hcg, ?Hgf, ?Hgr, ?String.eqb_refl; simpl;
      try specialize (Hzero eq_refl); split; intros; try discriminate; lia.
  - destruct (oscHandler st); [| exact Hi].
    revert st Hi.
    apply (handleVSCode_preserves
             (fun s => SentAtMostOnce (_gitCompletionsRequested s) requestEnableGitCompletionsSequence (emitted s)));
      intros.
    + unfold _handleCompletionsSequence, _notifyCompletions.
      preserving ltac:(apply git_once_fire_received).
    + unfold _handleCompletionsPwshCommandsSequence. preserving fail.
  - destruct (_terminal st); exact Hi.
  - destruct affectsEnabled; exact Hi.
  - unfold activate. run_m. destruct enabled; exact Hi.
  - destruct (_terminal st); exact Hi.
  - exact Hi.
Qed.

(** X18: over the whole life of a provider, whatever happens, the
    sequence that enables the code completions and the one that enables
    the git completions are each written at most once. *)
Theorem enable_sequences_sent_at_most_once
    (providedPwshCommands : option (list (TerminalCompletionItem ThemeIcon)))
    (shellType : option TerminalShellType) (commandDetection : option PromptInput.t)
    (cache : list (TerminalCompletionItem ThemeIcon)) (stored : option string)
    (ps : list (PromiseState ThemeIcon)) (evs : list Event)
    (Hdistinct : DistinctSequences) :
  (occurrences requestEnableCodeCompletionsSequence
     (emitted (run evs (constructed providedPwshCommands shellType commandDetection
                          cache stored ps))) <= 1)%nat
  /\ (occurrences requestEnableGitCompletionsSequence
        (emitted (run evs (constructed providedPwshCommands shellType commandDetection
                             cache stored ps))) <= 1)%nat.
Proof.
  assert (Hinit : forall flag : Provider ThemeIcon -> bool,
    (forall cache' st', flag (set_cachedPwshCommands cache' st') = flag st') ->
    (forall m st', flag (set__promptInputModel m st') = flag st') ->
    flag (fieldInitializers cache stored ps) = false ->
    forall seq,
      SentAtMostOnce
        (flag (constructed providedPwshCommands shellType commandDetection cache stored ps))
        seq
        (emitted (constructed providedPwshCommands shellType commandDetection
                    cache stored ps))).
  { intros flag Hc Hm Hf seq.
    assert (Hp : Preserves (ThemeIcon := ThemeIcon)
                   (fun s => emitted s = [] /\ flag s = false)
                   (constructor providedPwshCommands shellType commandDetection)).
    { unfold constructor, hydrate.
      preserving ltac:(apply preserves_modify;
                      let Hi := fresh in intros ? [? Hi]; split;
                      [assumption | first [now rewrite Hc | now rewrite Hm]]). }
    destruct (Hp (fieldInitializers cache stored ps) (conj eq_refl Hf)) as [He Hfl].
    unfold constructed. rewrite He. split; simpl; auto. }
  split.
  - apply (preserves_run
             (fun s : Provider ThemeIcon =>
                SentAtMostOnce (_codeCompletionsRequested s)
                  requestEnableCodeCompletionsSequence (emitted s))
             step (step_code_once Hdistinct) evs).
    now apply (Hinit _codeCompletionsRequested).
  - apply (preserves_run
             (fun s : Provider ThemeIcon =>
                SentAtMostOnce (_gitCompletionsRequested s)
                  requestEnableGitCompletionsSequence (emitted s))
             step (step_git_once Hdistinct) evs).
    now apply (Hinit _gitCompletionsRequested).
Qed.

End Requests.

(** ** Promises over the life of a provider *)

Section Promises.

Context {ThemeIcon : Type} `{Codicons ThemeIcon} `{Host ThemeIcon}.

Implicit Types (st : Provider ThemeIcon) (p q : nat).

Lemma resolver_pending_notify r :
  Preserves (ThemeIcon := ThemeIcon) ResolverPending (_notifyCompletions r).
Proof.
  intros st Hi. unfold ResolverPending, _notifyCompletions in *. run_m.
  destruct (_completionsResolver st) as [q|] eqn:Hq; run_m.
  - intros p [=].
  - intros p Hp. rewrite Hq in Hp. discriminate.
Qed.

Lemma resolver_pending_wait :
  Preserves (ThemeIcon := ThemeIcon) ResolverPending _waitForCompletions.
Proof.
  intros st Hi. unfold ResolverPending, _waitForCompletions in *. run_m.
  intros p [= <-]. rewrite lookup_app_r by lia. now rewrite Nat.sub_diag.
Qed.

Lemma step_resolver_pending ev st : ResolverPending st -> ResolverPending (step ev st).
Proof.
  intros Hi. destruct ev; simpl.
  - revert st Hi. unfold provideCompletions, fire.
    preserving ltac:(apply resolver_pending_wait).
  - destruct (oscHandler st); [| exact Hi].
    revert st Hi. apply handleVSCode_preserves; intros.
    + unfold _handleCompletionsSequence, fire.
      preserving ltac:(apply resolver_pending_notify).
    + unfold _handleCompletionsPwshCommandsSequence. preserving fail.
  - destruct (_terminal st); exact Hi.
  - destruct affectsEnabled; exact Hi.
  - unfold activate. run_m. destruct enabled; exact Hi.
  - destruct (_terminal st); exact Hi.
  - exact Hi.
Qed.

(** X19: at every moment in the life of a provider, the stored resolver
    (if there is one) belongs to a promise that is still pending: the slot
    never holds the resolver of a settled or missing promise. *)
Theorem stored_resolver_is_pending
    (providedPwshCommands : option (list (TerminalCompletionItem ThemeIcon)))
    (shellType : option TerminalShellType) (commandDetection : option PromptInput.t)
    (cache : list (TerminalCompletionItem ThemeIcon)) (stored : option string)
    (ps : list (PromiseState ThemeIcon)) (evs : list Event) p
    (Hstored : _completionsResolver
                 (run evs (constructed providedPwshCommands shellType commandDetection
                             cache stored ps)) = Some p) :
  promises (run evs (constructed providedPwshCommands shellType commandDetection
                       cache stored ps)) !! p = Some Pending.
Proof.
  revert p Hstored.
  change (ResolverPending
            (run evs (constructed providedPwshCommands shellType commandDetection
                        cache stored ps))).
  apply (preserves_run ResolverPending step step_resolver_pending).
  assert (Hc : Preserves (ThemeIcon := ThemeIcon) ResolverPending
                 (constructor providedPwshCommands shellType commandDetection)).
  { unfold constructor, hydrate. preserving fail. }
  apply Hc. intros p [=].
Qed.

(** The promise [p] holds [v] and is not the one whose resolver is stored. *)
Lemma other_promise_notify p (v : option (PromiseState ThemeIcon)) r :
  Preserves (ThemeIcon := ThemeIcon)
    (fun st => promises st !! p = v /\ _completionsResolver st <> Some p)
    (_notifyCompletions r).
Proof.
  intros st [Hp Hr]. unfold _notifyCompletions. run_m.
  destruct (_completionsResolver st) as [q|] eqn:Hq; run_m;
    [| split; [exact Hp | rewrite Hq; discriminate]].
  split; [| discriminate].
  unfold resolvePromise.
  destruct (promises st !! q) as [[| w] |]; try exact Hp.
  rewrite list_lookup_insert_ne; [exact Hp | congruence].
Qed.

(** X20: a completion batch settles at most the request whose resolver
    is stored: every other promise, pending or fulfilled, is as before,
    for every sequence the terminal delivers. *)
Theorem batch_settles_only_stored_request st (data : string) q
    (Hother : _completionsResolver st <> Some q) :
  promises (step (Osc data) st) !! q = promises st !! q.
Proof.
  simpl. destruct (oscHandler st); [| reflexivity].
  assert (Hk : Preserves (ThemeIcon := ThemeIcon)
                 (fun s => promises s !! q = promises st !! q
                           /\ _completionsResolver s <> Some q)
                 (_handleVSCodeSequence data)).
  { apply handleVSCode_preserves; intros.
    - unfold _handleCompletionsSequence, fire.
      preserving ltac:(apply other_promise_notify).
    - unfold _handleCompletionsPwshCommandsSequence. preserving fail. }
  now apply Hk.
Qed.





End Promises.

(** ** More on completion batches *)

Section BatchesMore.

Context {ThemeIcon : Type} `{Codicons ThemeIcon} `{Host ThemeIcon}.

Implicit Types (st : Provider ThemeIcon) (p q : nat).

Lemma short_arguments_throw (data command : string) (args : list string) :
  (length args < 3)%nat -> rawCompletionsOf data command args = inl TypeError.
Proof.
  intros Hlen. unfold rawCompletionsOf, payloadOf.
  destruct args as [| a0 [| a1 [| a2 rest]]]; simpl in *; try reflexivity; lia.
Qed.

Lemma payload_needs_three_arguments (data command payload : string) (args : list string) :
  payloadOf data command args = inr payload -> (3 <= length args)%nat.
Proof.
  unfold payloadOf.
  destruct args as [| a0 [| a1 [| a2 rest]]]; simpl; try discriminate. lia.
Qed.

Lemma unparsable_payload_throws (data command payload : string) (args : list string) :
  payloadOf data command args = inr payload ->
  payload <> EmptyString -> JSON_parse payload = None ->
  rawCompletionsOf data command args = inl SyntaxError.
Proof.
  intros Hp Hne Hparse. pose proof (payload_needs_three_arguments _ _ _ _ Hp) as Hlen.
  unfold rawCompletionsOf. rewrite Hp. simpl.
  destruct args; [simpl in Hlen; lia |]. destruct payload; [congruence |].
  simpl. now rewrite Hparse.
Qed.

Lemma handler_focused_state st (terminal : Terminal) (data command : string)
    (args : list string) (model : PromptInput.t) :
  _promptInputModel st = Some model ->
  element terminal = true -> _enableWidget st = true ->
  isAncestorOfActiveElement terminal = true ->
  let r := _handleCompletionsSequence terminal data command args st in
  match rawCompletionsOf data command args with
  | inl e => promises (snd r) = promises st
             /\ _completionsResolver (snd r) = _completionsResolver st
  | inr raw =>
      match parseCompletionsFromShell raw (fst (windowOf st model args))
              (snd (windowOf st model args)) with
      | inl e => promises (snd r) = promises st
                 /\ _completionsResolver (snd r) = _completionsResolver st
      | inr decoded =>
          _isFilteringDirectories (snd r)
          = existsb isDirectory (completionsOf st model decoded)
          /\ _pathSeparator (snd r)
             = (if existsb isDirectory (completionsOf st model decoded)
                then default sep (c ← List.find isDirectory (completionsOf st model decoded);
                                  matchSep (label c))
                else _pathSeparator st)
      end
  end.
Proof.
  intros Hmodel He Hw Hf r. subst r.
  unfold _handleCompletionsSequence, windowOf, completionsOf. run_m.
  rewrite Hmodel, He, Hw, Hf. simpl. run_m.
  destruct (isGlobalCommandOf (leadingLineContentOf model (_cursorIndexDelta st)));
    simpl; run_m;
    (destruct (rawCompletionsOf data command args) as [e | raw]; simpl; [split; reflexivity |]);
    match goal with
    | |- context [parseCompletionsFromShell raw ?a ?b] =>
        destruct (parseCompletionsFromShell raw a b) as [e | decoded]
    end; simpl; try (split; reflexivity);
    unfold _notifyCompletions; run_m;
    match goal with
    | |- context [existsb isDirectory ?l] => destruct (existsb isDirectory l) eqn:Hx
    end; simpl; run_m;
    destruct (_completionsResolver st) eqn:Hr; simpl; rewrite ?Hx; auto.
Qed.

(** X22: in a focused terminal, a [Completions] message with fewer than
    three arguments (none included) throws [TypeError], and one whose
    non-empty payload does not parse throws [SyntaxError]; in both cases
    the pending request is not settled and its resolver stays stored. *)
Theorem malformed_batch_leaves_request_pending
    st (terminal : Terminal) (data command : string) (args : list string)
    (model : PromptInput.t) p
    (Hmodel : _promptInputModel st = Some model)
    (Helement : element terminal = true)
    (Hwidget : _enableWidget st = true)
    (Hfocus : isAncestorOfActiveElement terminal = true)
    (Hresolver : _completionsResolver st = Some p)
    (Hpending : promises st !! p = Some Pending)
    (Hbad : (length args < 3)%nat
            \/ exists payload,
                 payloadOf data command args = inr payload
                 /\ payload <> EmptyString /\ JSON_parse payload = None) :
  fst (_handleCompletionsSequence terminal data command args st)
    = inl (if (length args <? 3)%nat then TypeError else SyntaxError)
  /\ promises (snd (_handleCompletionsSequence terminal data command args st)) !! p
     = Some Pending
  /\ _completionsResolver (snd (_handleCompletionsSequence terminal data command args st))
     = Some p.
Proof.
  pose proof (handler_focused st terminal data command args model
                Hmodel Helement Hwidget Hfocus) as Hr.
  pose proof (handler_focused_state st terminal data command args model
                Hmodel Helement Hwidget Hfocus) as Hs.
  cbv zeta in Hr, Hs.
  assert (Hraw : rawCompletionsOf data command args
                 = inl (if (length args <? 3)%nat then TypeError else SyntaxError)).
  { destruct Hbad as [Hlen | (payload & Hp & Hne & Hparse)].
    - rewrite (short_arguments_throw _ _ _ Hlen).
      apply Nat.ltb_lt in Hlen. now rewrite Hlen.
    - rewrite (unparsable_payload_throws _ _ _ _ Hp Hne Hparse).
      apply payload_needs_three_arguments in Hp.
      destruct (Nat.ltb_spec (length args) 3); [lia | reflexivity]. }
  rewrite Hraw in Hr, Hs. destruct Hs as [Hps Hres].
  rewrite Hps, Hres. auto.
Qed.

Lemma batch_keeps_cache (c : list (TerminalCompletionItem ThemeIcon)) (x : option string)
    (terminal : Terminal) (data command : string) (args : list string) :
  Preserves (ThemeIcon := ThemeIcon)
    (fun s => cachedPwshCommands s = c /\ storage s = x)
    (_handleCompletionsSequence terminal data command args).
Proof. unfold _handleCompletionsSequence, _notifyCompletions, fire. preserving fail. Qed.

(** X23: in a focused terminal, when the line up to the cursor has no
    space and does not start with "[", the batch is decoded with the
    window (0, cursor index) whatever its arguments say, and the request
    is resolved with the decoded items followed by all cached commands;
    the cache and the storage are only read. *)
Theorem global_batch_appends_cache
    st (terminal : Terminal) (data command : string) (args : list string)
    (model : PromptInput.t) (raw : JSValue)
    (decoded : list (TerminalCompletionItem ThemeIcon)) p
    (Hmodel : _promptInputModel st = Some model)
    (Helement : element terminal = true)
    (Hwidget : _enableWidget st = true)
    (Hfocus : isAncestorOfActiveElement terminal = true)
    (Hglobal :
       isGlobalCommandOf (leadingLineContentOf model (_cursorIndexDelta st)) = true)
    (Hraw : rawCompletionsOf data command args = inr raw)
    (Hdecoded : parseCompletionsFromShell raw (Num 0) (Num (PromptInput.cursorIndex model))
                = inr decoded)
    (Hrecent : _mostRecentCompletion st = None)
    (Hresolver : _completionsResolver st = Some p)
    (Hpending : promises st !! p = Some Pending) :
  fst (_handleCompletionsSequence terminal data command args st) = inr tt
  /\ promises (snd (_handleCompletionsSequence terminal data command args st)) !! p
     = Some (Fulfilled (Some (decoded ++ cachedPwshCommands st)))
  /\ Forall (fun i => replacementIndex i = Num 0
                      /\ replacementLength i = Num (PromptInput.cursorIndex model)) decoded
  /\ cachedPwshCommands (snd (_handleCompletionsSequence terminal data command args st))
     = cachedPwshCommands st
  /\ storage (snd (_handleCompletionsSequence terminal data command args st)) = storage st.
Proof.
  pose proof (handler_focused st terminal data command args model
                Hmodel Helement Hwidget Hfocus) as Hh.
  cbv zeta in Hh. unfold windowOf, completionsOf in Hh.
  rewrite Hraw, Hglobal in Hh. simpl in Hh. rewrite Hdecoded in Hh.
  destruct Hh as (Hok & _ & _ & _ & Hps).
  rewrite Hresolver, Hrecent in Hps. unfold carryOver, resolvePromise in Hps.
  rewrite Hpending in Hps.
  destruct (batch_keeps_cache (cachedPwshCommands st) (storage st)
              terminal data command args st (conj eq_refl eq_refl)) as [Hc Hx].
  split; [exact Hok |]. split.
  { rewrite Hps. apply list_lookup_insert_eq. now apply lookup_lt_Some in Hpending. }
  split; [now apply parse_window with (raw := raw) |].
  split; assumption.
Qed.

(** X24: after a batch is processed in a focused terminal, the provider
    filters directories exactly when some resolved completion is a
    directory; the path separator is then the leftmost separator in the
    label of the first such completion (the host's if it has none), and
    is left as it was otherwise. *)
Theorem directory_filtering_follows_batch
    st (terminal : Terminal) (data command : string) (args : list string)
    (model : PromptInput.t) (raw : JSValue)
    (decoded : list (TerminalCompletionItem ThemeIcon))
    (Hmodel : _promptInputModel st = Some model)
    (Helement : element terminal = true)
    (Hwidget : _enableWidget st = true)
    (Hfocus : isAncestorOfActiveElement terminal = true)
    (Hraw : rawCompletionsOf data command args = inr raw)
    (Hdecoded : parseCompletionsFromShell raw (fst (windowOf st model args))
                  (snd (windowOf st model args)) = inr decoded) :
  _isFilteringDirectories (snd (_handleCompletionsSequence terminal data command args st))
    = existsb isDirectory (completionsOf st model decoded)
  /\ (forall c, List.find isDirectory (completionsOf st model decoded) = Some c ->
        _pathSeparator (snd (_handleCompletionsSequence terminal data command args st))
        = default sep (matchSep (label c)))
  /\ (existsb isDirectory (completionsOf st model decoded) = false ->
        _pathSeparator (snd (_handleCompletionsSequence terminal data command args st))
        = _pathSeparator st).
Proof.
  pose proof (handler_focused_state st terminal data command args model
                Hmodel Helement Hwidget Hfocus) as Hs.
  cbv zeta in Hs. rewrite Hraw, Hdecoded in Hs. destruct Hs as [Hfilter Hsep].
  split; [exact Hfilter |]. split.
  - intros c Hc. rewrite Hsep, Hc.
    assert (Hex : existsb isDirectory (completionsOf st model decoded) = true).
    { apply existsb_exists. apply find_some in Hc. exists c. exact Hc. }
    now rewrite Hex.
  - intros Hnone. now rewrite Hsep, Hnone.
Qed.

End BatchesMore.

(** ** What never happens *)

Section Never.

Context {ThemeIcon : Type} `{Codicons ThemeIcon} `{Host ThemeIcon}.

(** X25: no method of the provider records a most recent completion: the
    field is unset after the constructor and after every event, so in a
    running provider the carry-over leaves every batch as it is. *)
Theorem carry_over_never_fires
    (providedPwshCommands : option (list (TerminalCompletionItem ThemeIcon)))
    (shellType : option TerminalShellType) (commandDetection : option PromptInput.t)
    (cache : list (TerminalCompletionItem ThemeIcon)) (stored : option string)
    (ps : list (PromiseState ThemeIcon)) (evs : list Event)
    (completions : list (TerminalCompletionItem ThemeIcon)) :
  _mostRecentCompletion
    (run evs (constructed providedPwshCommands shellType commandDetection cache stored ps))
  = None
  /\ carryOver
       (_mostRecentCompletion
          (run evs (constructed providedPwshCommands shellType commandDetection
                      cache stored ps)))
       completions
     = completions.
Proof.
  assert (Hnone : NoRecent
            (run evs (constructed providedPwshCommands shellType commandDetection
                        cache stored ps))).
  { apply (preserves_run (NoRecent (ThemeIcon := ThemeIcon)) step step_keeps_no_recent).
    assert (Hc : Preserves (ThemeIcon := ThemeIcon) NoRecent
                   (constructor providedPwshCommands shellType commandDetection)).
    { unfold constructor, hydrate. preserving fail. }
    apply Hc. reflexivity. }
  unfold NoRecent in Hnone. rewrite Hnone. split; reflexivity.
Qed.

End Never.

(** ** Closed instances of the further properties *)

Example label_kept_unless_directory_witness :
  label (rawCompletionToTerminalCompletionItem sampleGit (Num 0) (Num 0)) = "git.exe".
Proof.
  refine (proj1 (label_kept_unless_directory sampleGit (Num 0) (Num 0) _)).
  discriminate.
Defined.

Example directory_label_ends_in_separator_witness :
  EndsInSeparator (label (rawCompletionToTerminalCompletionItem sampleFoo (Num 0) (Num 0)))
  \/ In (CompletionText sampleFoo) ["."; ".."; "-"; "+"].
Proof.
  refine (proj1 (directory_label_ends_in_separator sampleFoo (Num 0) (Num 0)
                   eq_refl (or_introl eq_refl))).
Defined.

Example nothing_decodes_to_nothing_witness :
  parseCompletionsFromShell (H := sampleCodicons) JNull (Num 0) (Num 0) = inr [].
Proof.
  refine (nothing_decodes_to_nothing JNull (Num 0) (Num 0) (or_introl eq_refl)).
Defined.

Example leading_string_means_one_tuple_witness :
  exists kind tip ico,
    getIndex 0 [JNum 2; JNull; JNull; JStr "ignored"] = JNum kind
    /\ encodesOptional JNull tip /\ encodesOptional JNull ico
    /\ [rawCompletionToTerminalCompletionItem sampleGit (Num 0) (Num 0)]
       = [rawCompletionToTerminalCompletionItem
            {| CompletionText := "git.exe"; ResultType := kind;
               ToolTip := tip; CustomIcon := ico |} (Num 0) (Num 0)].
Proof.
  refine (leading_string_means_one_tuple "git.exe" [JNum 2; JNull; JNull; JStr "ignored"]
            (Num 0) (Num 0) _ eq_refl).
Defined.

Example one_item_per_element_witness :
  length [rawCompletionToTerminalCompletionItem sampleGit (Num 0) (Num 0);
          rawCompletionToTerminalCompletionItem sampleFoo (Num 0) (Num 0)] = 2%nat.
Proof.
  refine (one_item_per_element
            [JArr [JStr "git.exe"; JNum 2]; JArr [JStr "foo"; JNum 4; JStr "a folder"]]
            (Num 0) (Num 0) _ _ eq_refl).
  intros first [= <-]. reflexivity.
Defined.

Example unrecognized_sequence_unhandled_witness :
  _handleVSCodeSequence "Prompt;cd" sampleAwaiting = (inr (Sync false), sampleAwaiting).
Proof.
  refine (unrecognized_sequence_unhandled sampleAwaiting "Prompt;cd" (or_intror _)).
  exists "Prompt", ["cd"]. repeat split; discriminate.
Defined.

Example global_commands_replace_cache_witness :
  cachedPwshCommands (snd (_handleVSCodeSequence sampleCommandsMessage sampleProvider))
  = [sampleCommand].
Proof.
  refine (proj1 (proj2 (global_commands_replace_cache sampleProvider sampleTerminal
            sampleCommandsMessage "x" [samplePayload]
            (JArr [JArr [JStr "src"; JNum 4]]) [sampleCommand]
            eq_refl eq_refl eq_refl eq_refl))).
Defined.


Example cleared_cache_is_not_restored_witness :
  cachedPwshCommands
    (constructed None (Some PowerShell) None
       (cachedPwshCommands (snd (clearSuggestCache sampleGlobalAwaiting)))
       (storage (snd (clearSuggestCache sampleGlobalAwaiting))) []) = [].
Proof.
  refine (proj2 (proj2 (proj2 (cleared_cache_is_not_restored sampleGlobalAwaiting
            (Some PowerShell) None [] (or_intror eq_refl))))).
Defined.

Example provided_commands_skip_storage_witness :
  cachedPwshCommands
    (constructed (Some [sampleCommand]) None None [] (Some sampleGarbage) [])
  = [sampleCommand].
Proof.
  refine (proj1 (proj2 (provided_commands_skip_storage sampleCommand [] [] None None
            (Some sampleGarbage) [] (or_introl eq_refl)))).
Defined.

Example stored_commands_are_loaded_witness :
  cachedPwshCommands
    (constructed (H0 := storeHost) None None None [] (Some "stored") [])
  = [sampleCommand].
Proof.
  refine (proj1 (proj2 (stored_commands_are_loaded (H0 := storeHost) None None []
            "stored" [] [storedCommand] [sampleCommand] (or_introl eq_refl) eq_refl _))).
  repeat constructor.
Defined.

Example stored_non_list_throws_witness :
  fst (constructor (H0 := storeHost) None None None
         (fieldInitializers [] (Some "null") [])) = inl TypeError.
Proof.
  refine (proj1 (stored_non_list_throws (H0 := storeHost) None None [] "null" [] JNull
            (or_introl eq_refl) eq_refl (or_introl eq_refl))).
Defined.

Example persisted_commands_are_restored_witness :
  cachedPwshCommands
    (constructed (H0 := storeHost) None None None
       (cachedPwshCommands
          (snd (_handleVSCodeSequence (H0 := storeHost) sampleCommandsMessage sampleProvider)))
       (storage
          (snd (_handleVSCodeSequence (H0 := storeHost) sampleCommandsMessage sampleProvider)))
       [])
  = [sampleCommand].
Proof.
  refine (persisted_commands_are_restored (H0 := storeHost) sampleProvider sampleTerminal
            sampleCommandsMessage "x" [samplePayload]
            (JArr [JArr [JStr "src"; JNum 4]]) [sampleCommand] [storedCommand]
            None None [] eq_refl eq_refl eq_refl eq_refl eq_refl _ (or_introl eq_refl)).
  repeat constructor.
Defined.

Lemma sample_sequences_distinct : DistinctSequences (H0 := sampleHost).
Proof. repeat split; discriminate. Defined.


Example global_request_iff_cache_empty_witness :
  exists signals,
    emitted (snd (provideCompletions EmptyString sampleConfig 0 sampleGlobalAwaiting))
    = emitted sampleGlobalAwaiting ++ signals
    /\ occurrences "f" signals = 0%nat.
Proof.
  refine (global_request_iff_cache_empty sampleGlobalAwaiting EmptyString sampleConfig 0
            sample_sequences_distinct).
Defined.

Example enable_sequences_sent_at_most_once_witness :
  (occurrences "h"
     (emitted (run [Request EmptyString sampleEnableBoth 0;
                    Request EmptyString sampleEnableBoth 0]
                 (constructed None None None [] None []))) <= 1)%nat.
Proof.
  refine (proj1 (enable_sequences_sent_at_most_once None None None [] None []
            [Request EmptyString sampleEnableBoth 0; Request EmptyString sampleEnableBoth 0]
            sample_sequences_distinct)).
Defined.

Example stored_resolver_is_pending_witness :
  promises
    (run [Activate sampleTerminal true; Data 5; Request EmptyString sampleConfig 0]
       (constructed None (Some PowerShell) (Some samplePrompt) [] None [])) !! 0%nat
  = Some Pending.
Proof.
  refine (stored_resolver_is_pending None (Some PowerShell) (Some samplePrompt) [] None []
            [Activate sampleTerminal true; Data 5; Request EmptyString sampleConfig 0]
            0 _).
  vm_compute. reflexivity.
Defined.

Example batch_settles_only_stored_request_witness :
  promises (step (Osc "Completions;3;2;5;[]")
              (step (Request EmptyString sampleConfig 0) sampleAwaiting)) !! 0%nat
  = promises (step (Request EmptyString sampleConfig 0) sampleAwaiting) !! 0%nat.
Proof.
  refine (batch_settles_only_stored_request
            (step (Request EmptyString sampleConfig 0) sampleAwaiting)
            "Completions;3;2;5;[]" 0 _).
  discriminate.
Defined.


Example malformed_batch_leaves_request_pending_witness :
  fst (_handleCompletionsSequence sampleTerminal "Completions" "Completions" []
         sampleAwaiting) = inl TypeError
  /\ promises (snd (_handleCompletionsSequence sampleTerminal "Completions" "Completions" []
                      sampleAwaiting)) !! 0%nat = Some Pending.
Proof.
  pose proof (malformed_batch_leaves_request_pending sampleAwaiting sampleTerminal
                "Completions" "Completions" [] samplePrompt 0
                eq_refl eq_refl eq_refl eq_refl eq_refl eq_refl
                (or_introl (le_S _ _ (le_S _ _ (le_n 1))))) as (Hthrows & Hpending & _).
  split; [exact Hthrows | exact Hpending].
Defined.

Example global_batch_appends_cache_witness :
  promises (snd (_handleCompletionsSequence sampleTerminal
                   ("Completions;7;7;7;" +:+ samplePayload) "Completions"
                   ["7"; "7"; "7"; samplePayload] sampleGlobalAwaiting)) !! 0%nat
  = Some (Fulfilled (Some
      ([{| label := "src/"; icon := "folder"; detail := "src/";
           isFile := false; isDirectory := true; isKeyword := false;
           replacementIndex := Num 0; replacementLength := Num 2 |}]
       ++ cachedPwshCommands sampleGlobalAwaiting))).
Proof.
  refine (proj1 (proj2 (global_batch_appends_cache sampleGlobalAwaiting sampleTerminal
            ("Completions;7;7;7;" +:+ samplePayload) "Completions"
            ["7"; "7"; "7"; samplePayload] sampleGlobalPrompt
            (JArr [JArr [JStr "src"; JNum 4]]) _ 0
            eq_refl eq_refl eq_refl eq_refl eq_refl eq_refl eq_refl eq_refl eq_refl
            eq_refl))).
Defined.

Example directory_filtering_follows_batch_witness :
  _isFilteringDirectories
    (snd (_handleCompletionsSequence sampleTerminal
            ("Completions;3;2;5;" +:+ samplePayload) "Completions"
            ["3"; "2"; "5"; samplePayload] sampleAwaiting))
  = existsb isDirectory (completionsOf sampleAwaiting samplePrompt [sampleDirectory]).
Proof.
  refine (proj1 (directory_filtering_follows_batch sampleAwaiting sampleTerminal
            ("Completions;3;2;5;" +:+ samplePayload) "Completions"
            ["3"; "2"; "5"; samplePayload] samplePrompt
            (JArr [JArr [JStr "src"; JNum 4]]) [sampleDirectory]
            eq_refl eq_refl eq_refl eq_refl eq_refl eq_refl)).
Defined.
